(** * Availability and scheduling engine of the barbershop scheduler

    A shallow embedding of [app/models.py] and of the [AppointmentService]
    methods of [app/services.py] ([create], [get_barber_appointments],
    [check_availability], [get_available_slots]) together with the
    [BarberService.get_by_id] lookup they rely on.

    Modelling conventions.
    - A naive [datetime] is the number of microseconds elapsed since
      midnight of an arbitrary epoch day, as an unbounded [Z]; comparison
      of datetimes is comparison of these numbers and adding a
      [timedelta] is addition.  The year range of Python's [datetime]
      and the day range of [timedelta] are not represented.
    - The SQL queries are read as the filters they express on the rows
      of a table; the arithmetic inside a WHERE clause is datetime
      arithmetic, as in the Python expression that builds it.
    - [datetime.utcnow()] is an effect: the clock is a function giving
      the value of its i-th reading, and the code threads the number of
      readings made so far.
    - An exception is a [Raise] result. *)

From Stdlib Require Import ZArith Lia List Sorted.
From stdpp Require Import base gmap sets list strings sorting.

Local Open Scope Z_scope.

(** ** Dates and times *)

Abbreviation datetime := Z.

Definition US_PER_SECOND : Z := 1000000.
Definition US_PER_MINUTE : Z := 60 * US_PER_SECOND.
Definition US_PER_HOUR : Z := 60 * US_PER_MINUTE.
Definition US_PER_DAY : Z := 24 * US_PER_HOUR.

(** [timedelta(minutes=n)] and [timedelta(days=n)]. *)
Definition timedelta_minutes (n : Z) : Z := n * US_PER_MINUTE.
Definition timedelta_days (n : Z) : Z := n * US_PER_DAY.

(** A [datetime.time] value (the type of [Barber.work_start]). *)
Record time := mk_time {
  hour : Z;
  minute : Z;
  second : Z;
  microsecond : Z
}.

Definition valid_time (t : time) : Prop :=
  0 <= hour t < 24 /\ 0 <= minute t < 60 /\
  0 <= second t < 60 /\ 0 <= microsecond t < US_PER_SECOND.

(** Microseconds since midnight; on valid times the order of these
    numbers is the order Python puts on [time] objects. *)
Definition time_to_us (t : time) : Z :=
  hour t * US_PER_HOUR + minute t * US_PER_MINUTE
  + second t * US_PER_SECOND + microsecond t.

Definition time_le (a b : time) : Prop := time_to_us a <= time_to_us b.

(** [d.replace(hour=0, minute=0, second=0, microsecond=0)] *)
Definition replace_midnight (d : datetime) : datetime :=
  d / US_PER_DAY * US_PER_DAY.

(** [d.replace(hour=h, minute=m, second=0, microsecond=0)] *)
Definition replace_hour_minute (d : datetime) (h m : Z) : datetime :=
  replace_midnight d + h * US_PER_HOUR + m * US_PER_MINUTE.

(** [d.replace(second=0, microsecond=0)] *)
Definition replace_second0 (d : datetime) : datetime :=
  d / US_PER_MINUTE * US_PER_MINUTE.

(** ** Data model ([app/models.py]) *)

Inductive AppointmentStatus :=
  | SCHEDULED
  | CONFIRMED
  | COMPLETED
  | CANCELLED
  | NO_SHOW.

#[global] Instance AppointmentStatus_eq_dec : EqDecision AppointmentStatus.
Proof. solve_decision. Defined.

(** Rows of the tables.  The primary key of a barber or of a service is
    the key of the table it is stored in; audit columns ([created_at],
    [updated_at]) and the columns no service method of the engine reads
    ([phone], [specialty], [description], [price]) are left out. *)
Record Barber := mk_Barber {
  barber_name : string;
  work_start : time;
  work_end : time;
  barber_is_active : bool
}.

Record Service := mk_Service {
  service_name : string;
  duration_minutes : Z;
  service_is_active : bool
}.

Record Appointment := mk_Appointment {
  id : Z;
  customer_id : Z;
  barber_id : Z;
  service_id : Z;
  scheduled_at : datetime;
  status : AppointmentStatus;
  notes : option string
}.

(** The session's view of the database: one finite map per table keyed
    by primary key, and the appointment rows in insertion order. *)
Record Database := mk_Database {
  barbers : gmap Z Barber;
  services : gmap Z Service;
  appointments : list Appointment
}.

(** ** Results and exceptions *)

Inductive exn := MultipleResultsFound.

Inductive result (A : Type) :=
  | Ok (a : A)
  | Raise (e : exn).
Arguments Ok {A} a.
Arguments Raise {A} e.

(** [Result.scalar_one_or_none()] *)
Definition scalar_one_or_none {A : Type} (rows : list A) : result (option A) :=
  match rows with
  | [] => Ok None
  | [row] => Ok (Some row)
  | _ :: _ :: _ => Raise MultipleResultsFound
  end.

(** [Appointment.status.in_([SCHEDULED, CONFIRMED])] *)
Definition status_active (s : AppointmentStatus) : bool :=
  match s with
  | SCHEDULED | CONFIRMED => true
  | _ => false
  end.

(** The [relationship] attribute [apt.service]: the service row the
    foreign key points at, [None] when there is no such row. *)
Definition apt_service (db : Database) (apt : Appointment) : option Service :=
  services db !! service_id apt.

(** ** [BarberService.get_by_id] *)

Definition get_by_id (db : Database) (barber_id : Z) : option Barber :=
  barbers db !! barber_id.

(** ** [AppointmentService.create] *)

(** The next value of the autoincrement primary key. *)
Definition next_id (rows : list Appointment) : Z :=
  1 + foldr (fun apt m => Z.max (id apt) m) 0 rows.

Definition create (db : Database) (customer_id barber_id service_id : Z)
    (scheduled_at : datetime) (notes : option string)
    : Database * Appointment :=
  let appointment :=
    {| id := next_id (appointments db);
       customer_id := customer_id;
       barber_id := barber_id;
       service_id := service_id;
       scheduled_at := scheduled_at;
       status := SCHEDULED;
       notes := notes |} in
  ({| barbers := barbers db;
      services := services db;
      appointments := appointments db ++ [appointment] |},
   appointment).

(** ** [AppointmentService.check_availability] *)

(** The WHERE clause of the query, on one row. *)
Definition availability_clash (barber : Z) (at_ end_time : datetime)
    (apt : Appointment) : bool :=
  (barber_id apt =? barber)
  && status_active (status apt)
  && (((scheduled_at apt <=? at_)
       && (scheduled_at apt + timedelta_minutes 30 >? at_))
      || ((scheduled_at apt <? end_time)
          && (scheduled_at apt >=? at_))).

Definition check_availability (db : Database) (barber_id : Z)
    (scheduled_at : datetime) (duration_minutes : Z) : result bool :=
  let end_time := scheduled_at + timedelta_minutes duration_minutes in
  match scalar_one_or_none
          (List.filter (availability_clash barber_id scheduled_at end_time)
             (appointments db)) with
  | Ok existing =>
      Ok (match existing with None => true | Some _ => false end)
  | Raise e => Raise e
  end.

(** ** [AppointmentService.get_barber_appointments] *)

Definition on_day_active (barber : Z) (start_of_day end_of_day : datetime)
    (apt : Appointment) : bool :=
  (barber_id apt =? barber)
  && (scheduled_at apt >=? start_of_day)
  && (scheduled_at apt <? end_of_day)
  && status_active (status apt).

(** [ORDER BY scheduled_at] *)
Definition scheduled_le (a b : Appointment) : Prop :=
  scheduled_at a <= scheduled_at b.

#[global] Instance scheduled_le_dec : RelDecision scheduled_le.
Proof. intros a b. unfold scheduled_le. apply _. Defined.

Definition order_by_scheduled_at (rows : list Appointment) : list Appointment :=
  merge_sort scheduled_le rows.

Definition get_barber_appointments (db : Database) (barber_id : Z)
    (date : datetime) : list Appointment :=
  let start_of_day := replace_midnight date in
  let end_of_day := start_of_day + timedelta_days 1 in
  order_by_scheduled_at
    (List.filter (on_day_active barber_id start_of_day end_of_day)
       (appointments db)).

(** ** [AppointmentService.get_available_slots] *)

(** The three [while] loops of the method advance a datetime by thirty
    minutes until it reaches a limit.  Each is a structural recursion on
    a number of rounds; [rounds limit current] rounds are enough for the
    loop to leave through its own test (lemmas [block_loop_rounds],
    [check_loop_rounds] and [slot_loop_rounds] below). *)
Definition rounds (limit current : datetime) : nat :=
  Z.to_nat ((limit - current) / timedelta_minutes 30 + 1).

(** [while current < limit: blocked_times.add(current.replace(second=0,
    microsecond=0)); current += timedelta(minutes=30)] *)
Fixpoint block_loop (n : nat) (limit current : datetime)
    (blocked_times : gset Z) : gset Z :=
  match n with
  | O => blocked_times
  | S n' =>
      if current <? limit
      then block_loop n' limit (current + timedelta_minutes 30)
             (blocked_times ∪ {[ replace_second0 current ]})
      else blocked_times
  end.

(** [apt.service.duration_minutes if apt.service else 30] *)
Definition apt_duration (db : Database) (apt : Appointment) : Z :=
  match apt_service db apt with
  | Some service => duration_minutes service
  | None => 30
  end.

(** One round of [for apt in existing_appointments]. *)
Definition block_appointment (db : Database) (blocked_times : gset Z)
    (apt : Appointment) : gset Z :=
  let limit := scheduled_at apt + timedelta_minutes (apt_duration db apt) in
  block_loop (rounds limit (scheduled_at apt)) limit (scheduled_at apt)
    blocked_times.

(** The value of [blocked_times] when the [for] loop is over. *)
Definition blocked_times_of (db : Database) (barber_id : Z) (date : datetime)
    : gset Z :=
  fold_left (block_appointment db) (get_barber_appointments db barber_id date) ∅.

(** The inner [while] with its [break]: the final value of
    [is_available]. *)
Fixpoint check_loop (n : nat) (blocked_times : gset Z)
    (limit check_time : datetime) : bool :=
  match n with
  | O => true
  | S n' =>
      if check_time <? limit
      then if bool_decide (check_time ∈ blocked_times)
           then false
           else check_loop n' blocked_times limit
                  (check_time + timedelta_minutes 30)
      else true
  end.

Definition slot_is_available (blocked_times : gset Z)
    (current_slot : datetime) (service_duration : Z) : bool :=
  let limit := current_slot + timedelta_minutes service_duration in
  check_loop (rounds limit current_slot) blocked_times limit current_slot.

(** The outer [while].  [utcnow i] is the value of the i-th call of
    [datetime.utcnow()]; [reads] counts the calls made so far.  The
    test [is_available and current_slot > datetime.utcnow()] reads the
    clock only when [is_available] holds. *)
Fixpoint slot_loop (n : nat) (utcnow : nat -> datetime)
    (blocked_times : gset Z) (service_duration : Z) (end_of_day : datetime)
    (current_slot : datetime) (available_slots : list datetime) (reads : nat)
    : list datetime * nat :=
  match n with
  | O => (available_slots, reads)
  | S n' =>
      if current_slot + timedelta_minutes service_duration <=? end_of_day
      then
        let '(available_slots', reads') :=
          if slot_is_available blocked_times current_slot service_duration
          then (if current_slot >? utcnow reads
                then available_slots ++ [current_slot]
                else available_slots,
                S reads)
          else (available_slots, reads) in
        slot_loop n' utcnow blocked_times service_duration end_of_day
          (current_slot + timedelta_minutes 30) available_slots' reads'
      else (available_slots, reads)
  end.

Definition start_of_day (barber : Barber) (date : datetime) : datetime :=
  replace_hour_minute date (hour (work_start barber)) (minute (work_start barber)).

Definition end_of_day (barber : Barber) (date : datetime) : datetime :=
  replace_hour_minute date (hour (work_end barber)) (minute (work_end barber)).

(** The method returns the list of slots; the model also returns the
    number of clock readings the call made. *)
Definition get_available_slots_reads (db : Database) (utcnow : nat -> datetime)
    (barber_id : Z) (date : datetime) (service_duration : Z)
    : list datetime * nat :=
  match get_by_id db barber_id with
  | None => ([], O)
  | Some barber =>
      let blocked_times := blocked_times_of db barber_id date in
      let start_of_day := start_of_day barber date in
      let end_of_day := end_of_day barber date in
      slot_loop
        (rounds (end_of_day - timedelta_minutes service_duration + 1) start_of_day)
        utcnow blocked_times service_duration end_of_day start_of_day [] O
  end.

Definition get_available_slots (db : Database) (utcnow : nat -> datetime)
    (barber_id : Z) (date : datetime) (service_duration : Z) : list datetime :=
  fst (get_available_slots_reads db utcnow barber_id date service_duration).

(** ** Auxiliary notions for the statements *)

(** The instants a booking that starts at [start] and ends before
    [limit] puts into [blocked_times]. *)
Definition blocked_point (start limit x : Z) : Prop :=
  exists k : Z, 0 <= k /\ start + k * timedelta_minutes 30 < limit
                /\ x = replace_second0 (start + k * timedelta_minutes 30).

(** What is known of a slot the loop appended, when the loop started
    at [t] with [reads] clock readings made and ended with [reads']. *)
Definition appended (utcnow : nat -> Z) (b : gset Z) (d e t : Z)
    (reads reads' : nat) (s : Z) : Prop :=
  (exists k : Z, 0 <= k /\ s = t + k * timedelta_minutes 30)
  /\ s + timedelta_minutes d <= e
  /\ slot_is_available b s d = true
  /\ exists i : nat, (reads <= i < reads')%nat /\ utcnow i < s.

(** The candidates the slot loop goes through: the grid points from [t]
    on at which the service fits the window. *)
Fixpoint candidates (n : nat) (d e t : Z) : list Z :=
  match n with
  | O => []
  | S n' =>
      if t + timedelta_minutes d <=? e
      then t :: candidates n' d e (t + timedelta_minutes 30)
      else []
  end.


(** ** The specification's conflict rule *)

(** The half-open overlap rule of the specification, section 4.2, with
    the booked service's duration ([apt_duration], thirty minutes when
    the service cannot be resolved). *)
Definition spec_conflict (db : Database) (candidate_start : datetime)
    (candidate_duration : Z) (apt : Appointment) : bool :=
  (scheduled_at apt <? candidate_start + timedelta_minutes candidate_duration)
  && (scheduled_at apt + timedelta_minutes (apt_duration db apt) >? candidate_start).

Definition spec_is_available (db : Database) (barber : Z)
    (candidate_start : datetime) (candidate_duration : Z) : bool :=
  forallb
    (fun apt =>
       negb ((barber_id apt =? barber) && status_active (status apt)
             && spec_conflict db candidate_start candidate_duration apt))
    (appointments db).

(** The preconditions the specification gives for [book], section 4.4,
    in its words: provider exists and is active, service exists and is
    active, [isAvailable] for the start and the service's duration. *)
Definition spec_book_preconditions (db : Database) (barber service : Z)
    (start : datetime) : bool :=
  match barbers db !! barber, services db !! service with
  | Some b, Some s =>
      barber_is_active b && service_is_active s
      && match check_availability db barber start (duration_minutes s) with
         | Ok ok => ok
         | Raise _ => false
         end
  | _, _ => false
  end.

(** ** Sample data *)

Module Sample.

(** A datetime of the sample day (day 20000 of the epoch). *)
Definition at_ (h m s : Z) : datetime :=
  timedelta_days 20000 + h * US_PER_HOUR + m * US_PER_MINUTE + s * US_PER_SECOND.

Definition barber_9_19 (active : bool) : Barber :=
  {| barber_name := "Ana"; work_start := mk_time 9 0 0 0;
     work_end := mk_time 19 0 0 0; barber_is_active := active |}.

Definition service_of (minutes : Z) : Service :=
  {| service_name := "Corte"; duration_minutes := minutes;
     service_is_active := true |}.

(** One booking of barber 1 for service 1. *)
Definition booking (start : datetime) : Appointment :=
  {| id := 1; customer_id := 1; barber_id := 1; service_id := 1;
     scheduled_at := start; status := SCHEDULED; notes := None |}.

(** Barber 1 works 09:00-19:00; service 1 lasts [minutes]. *)
Definition shop (active : bool) (minutes : Z) (rows : list Appointment)
    : Database :=
  {| barbers := {[ 1 := barber_9_19 active ]};
     services := {[ 1 := service_of minutes ]};
     appointments := rows |}.

(** A clock that stands still at [t]. *)
Definition frozen (t : datetime) : nat -> datetime := fun _ => t.

(** A confirmed booking of service 1 that starts at 23:30 of the day
    before the sample day. *)
Definition late_booking : Appointment :=
  {| id := 1; customer_id := 1; barber_id := 1; service_id := 1;
     scheduled_at := at_ 0 0 0 - timedelta_minutes 30;
     status := CONFIRMED; notes := None |}.

(** Barber 1 works 00:00-02:00; service 1 lasts two hours. *)
Definition night_shop (rows : list Appointment) : Database :=
  {| barbers :=
       {[ 1 := {| barber_name := "Caio"; work_start := mk_time 0 0 0 0;
                  work_end := mk_time 2 0 0 0; barber_is_active := true |} ]};
     services := {[ 1 := service_of 120 ]};
     appointments := rows |}.

End Sample.


(** ** Customers and conversations ([app/models.py]) *)

(** As for the other tables, the audit columns of a customer
    ([created_at], [last_interaction]) are left out. *)
Module Customer.

Record t := mk {
  id : Z;
  phone : string;
  name : option string
}.

End Customer.

Module Conversation.

Record t := mk {
  id : Z;
  customer_id : Z;
  role : string;
  content : string;
  created_at : datetime
}.

End Conversation.

(** The session's view of all the tables. *)
Record Session := mk_Session {
  database : Database;
  customers : list Customer.t;
  conversations : list Conversation.t
}.

(** Truth value of an optional string in a Python condition: [None] and
    the empty string are false. *)
Definition truthy (s : option string) : bool :=
  match s with
  | Some text => negb (String.eqb text EmptyString)
  | None => false
  end.

(** ** [CustomerService] *)

Module CustomerService.

Definition get_by_phone (s : Session) (phone : string)
    : result (option Customer.t) :=
  scalar_one_or_none
    (List.filter (fun c => String.eqb (Customer.phone c) phone) (customers s)).

(** The next value of the autoincrement primary key. *)
Definition next_id (rows : list Customer.t) : Z :=
  1 + foldr (fun c m => Z.max (Customer.id c) m) 0 rows.

(** [customer.name = name] *)
Definition with_name (name : option string) (c : Customer.t) : Customer.t :=
  {| Customer.id := Customer.id c;
     Customer.phone := Customer.phone c;
     Customer.name := name |}.

(** The UPDATE the commit sends for the changed object. *)
Definition update_row (customer_id : Z) (name : option string)
    (rows : list Customer.t) : list Customer.t :=
  map (fun c => if Customer.id c =? customer_id then with_name name c else c)
    rows.

Definition get_or_create (s : Session) (phone : string) (name : option string)
    : result (Session * Customer.t) :=
  match get_by_phone s phone with
  | Raise e => Raise e
  | Ok None =>
      let customer :=
        {| Customer.id := next_id (customers s);
           Customer.phone := phone;
           Customer.name := name |} in
      Ok ({| database := database s;
             customers := customers s ++ [customer];
             conversations := conversations s |},
          customer)
  | Ok (Some customer) =>
      if truthy name && negb (truthy (Customer.name customer))
      then
        Ok ({| database := database s;
               customers := update_row (Customer.id customer) name (customers s);
               conversations := conversations s |},
            with_name name customer)
      else Ok (s, customer)
  end.

Definition update_name (s : Session) (phone name : string)
    : result (Session * option Customer.t) :=
  match get_by_phone s phone with
  | Raise e => Raise e
  | Ok None => Ok (s, None)
  | Ok (Some customer) =>
      Ok ({| database := database s;
             customers :=
               update_row (Customer.id customer) (Some name) (customers s);
             conversations := conversations s |},
          Some (with_name (Some name) customer))
  end.

End CustomerService.

(** [ORDER BY scheduled_at DESC] *)
Definition scheduled_ge (a b : Appointment) : Prop :=
  scheduled_at b <= scheduled_at a.

#[global] Instance scheduled_ge_dec : RelDecision scheduled_ge.
Proof. intros a b. unfold scheduled_ge. apply _. Defined.

(** ** The entries [get_customer_history_with_barbers] builds *)

Module BarberHistory.

(** One value of the [barber_history] dictionary.  [services_used] is
    the Python set; the list the method makes of it at the end has its
    elements in an order Python does not fix, and is left as the set. *)
Record t := mk {
  barber_id : Z;
  barber_name : string;
  total_visits : Z;
  last_visit : datetime;
  services_used : gset string
}.

End BarberHistory.

(** The exceptions of that method: those of a query, and the
    [AttributeError] of [apt.barber.name] or [apt.service.name] when the
    relationship attribute is [None]. *)
Inductive error :=
  | QueryError (e : exn)
  | AttributeError.

Inductive attempt (A : Type) :=
  | Returns (a : A)
  | Raises (e : error).
Arguments Returns {A} a.
Arguments Raises {A} e.

(** ** [AppointmentService.get_by_id] and [AppointmentService.cancel] *)

Module AppointmentService.

Definition get_by_id (db : Database) (appointment_id : Z)
    : result (option Appointment) :=
  scalar_one_or_none
    (List.filter (fun apt => id apt =? appointment_id) (appointments db)).

(** [appointment.status = s] *)
Definition with_status (s : AppointmentStatus) (apt : Appointment)
    : Appointment :=
  {| id := id apt;
     customer_id := customer_id apt;
     barber_id := barber_id apt;
     service_id := service_id apt;
     scheduled_at := scheduled_at apt;
     status := s;
     notes := notes apt |}.

(** The UPDATE the commit sends for the changed object: the row with
    its primary key gets the new status.  (The same UPDATE sets the audit
    column [updated_at] to the clock value; audit columns are not part
    of the rows of the model.) *)
Definition update_status (appointment_id : Z) (s : AppointmentStatus)
    (rows : list Appointment) : list Appointment :=
  map (fun apt => if id apt =? appointment_id then with_status s apt else apt)
    rows.

Definition cancel (db : Database) (appointment_id : Z)
    : result (Database * option Appointment) :=
  match get_by_id db appointment_id with
  | Raise e => Raise e
  | Ok None => Ok (db, None)
  | Ok (Some appointment) =>
      Ok ({| barbers := barbers db;
             services := services db;
             appointments :=
               update_status appointment_id CANCELLED (appointments db) |},
          Some (with_status CANCELLED appointment))
  end.

(** [get_customer_appointments]; [now] is the value [datetime.utcnow()]
    returns when the query is built, read only for [upcoming_only]. *)
Definition get_customer_appointments (s : Session) (now : datetime)
    (customer_phone : string) (upcoming_only : bool)
    : result (list Appointment) :=
  match CustomerService.get_by_phone s customer_phone with
  | Raise e => Raise e
  | Ok None => Ok []
  | Ok (Some customer) =>
      let query :=
        List.filter (fun apt => customer_id apt =? Customer.id customer)
          (appointments (database s)) in
      let query :=
        if upcoming_only
        then List.filter
               (fun apt => (scheduled_at apt >=? now)
                           && status_active (status apt))
               query
        else query in
      Ok (merge_sort scheduled_ge query)
  end.

(** The dictionary [barber_history], in insertion order. *)
Definition has_key (key : Z) (barber_history : list (Z * BarberHistory.t))
    : bool :=
  existsb (fun kv => fst kv =? key) barber_history.

(** [barber_history[key] = f(barber_history[key])] for a key that is
    present. *)
Definition at_key (key : Z) (f : BarberHistory.t -> BarberHistory.t)
    (barber_history : list (Z * BarberHistory.t))
    : list (Z * BarberHistory.t) :=
  map (fun kv => if fst kv =? key then (fst kv, f (snd kv)) else kv)
    barber_history.

Definition add_visit (bh : BarberHistory.t) : BarberHistory.t :=
  {| BarberHistory.barber_id := BarberHistory.barber_id bh;
     BarberHistory.barber_name := BarberHistory.barber_name bh;
     BarberHistory.total_visits := BarberHistory.total_visits bh + 1;
     BarberHistory.last_visit := BarberHistory.last_visit bh;
     BarberHistory.services_used := BarberHistory.services_used bh |}.

Definition add_service (name : string) (bh : BarberHistory.t)
    : BarberHistory.t :=
  {| BarberHistory.barber_id := BarberHistory.barber_id bh;
     BarberHistory.barber_name := BarberHistory.barber_name bh;
     BarberHistory.total_visits := BarberHistory.total_visits bh;
     BarberHistory.last_visit := BarberHistory.last_visit bh;
     BarberHistory.services_used := BarberHistory.services_used bh ∪ {[ name ]} |}.

(** One round of [for apt in appointments]. *)
Definition history_step (db : Database)
    (barber_history : list (Z * BarberHistory.t)) (apt : Appointment)
    : attempt (list (Z * BarberHistory.t)) :=
  let entered :=
    if has_key (barber_id apt) barber_history
    then Returns barber_history
    else
      match barbers db !! barber_id apt with
      | None => Raises AttributeError
      | Some barber =>
          Returns
            (barber_history ++
             [(barber_id apt,
               {| BarberHistory.barber_id := barber_id apt;
                  BarberHistory.barber_name := barber_name barber;
                  BarberHistory.total_visits := 0;
                  BarberHistory.last_visit := scheduled_at apt;
                  BarberHistory.services_used := ∅ |})])
      end in
  match entered with
  | Raises e => Raises e
  | Returns barber_history =>
      let barber_history := at_key (barber_id apt) add_visit barber_history in
      match apt_service db apt with
      | None => Raises AttributeError
      | Some service =>
          Returns
            (at_key (barber_id apt) (add_service (service_name service))
               barber_history)
      end
  end.

Fixpoint history_loop (db : Database) (rows : list Appointment)
    (barber_history : list (Z * BarberHistory.t))
    : attempt (list (Z * BarberHistory.t)) :=
  match rows with
  | [] => Returns barber_history
  | apt :: rows' =>
      match history_step db barber_history apt with
      | Raises e => Raises e
      | Returns barber_history' => history_loop db rows' barber_history'
      end
  end.

Definition get_customer_history_with_barbers (s : Session)
    (customer_phone : string) : attempt (list BarberHistory.t) :=
  match CustomerService.get_by_phone s customer_phone with
  | Raise e => Raises (QueryError e)
  | Ok None => Returns []
  | Ok (Some customer) =>
      let appointments :=
        merge_sort scheduled_ge
          (List.filter (fun apt => customer_id apt =? Customer.id customer)
             (appointments (database s))) in
      match history_loop (database s) appointments [] with
      | Raises e => Raises e
      | Returns barber_history => Returns (map snd barber_history)
      end
  end.

End AppointmentService.

(** ** [ConversationService] *)

(** [ORDER BY created_at DESC] *)
Definition created_ge (a b : Conversation.t) : Prop :=
  Conversation.created_at b <= Conversation.created_at a.

#[global] Instance created_ge_dec : RelDecision created_ge.
Proof. intros a b. unfold created_ge. apply _. Defined.

Module ConversationService.

(** The next value of the autoincrement primary key. *)
Definition next_id (rows : list Conversation.t) : Z :=
  1 + foldr (fun c m => Z.max (Conversation.id c) m) 0 rows.

(** [add_message]; [now] is the value of [datetime.utcnow()] the column
    default of [created_at] takes when the row is inserted. *)
Definition add_message (s : Session) (now : datetime) (customer_id : Z)
    (role content : string) : Session * Conversation.t :=
  let conversation :=
    {| Conversation.id := next_id (conversations s);
       Conversation.customer_id := customer_id;
       Conversation.role := role;
       Conversation.content := content;
       Conversation.created_at := now |} in
  ({| database := database s;
      customers := customers s;
      conversations := conversations s ++ [conversation] |},
   conversation).

(** [get_recent_messages]; the limit is a natural number (what a
    negative LIMIT does depends on the database). *)
Definition get_recent_messages (s : Session) (customer_id : Z) (limit : nat)
    : list Conversation.t :=
  let messages :=
    firstn limit
      (merge_sort created_ge
         (List.filter (fun c => Conversation.customer_id c =? customer_id)
            (conversations s))) in
  rev messages.

End ConversationService.

(** ** [BarberService.create] and [BarberService.get_all_active] *)

Module BarberService.

(** The next value of the autoincrement primary key. *)
Definition next_id (rows : gmap Z Barber) : Z :=
  1 + map_fold (fun key _ m => Z.max key m) 0 rows.

(** [create]; the columns [phone] and [specialty] are not in the model
    of a barber row, the working hours and the active flag take their
    column defaults. *)
Definition create (db : Database) (name : string) : Database * (Z * Barber) :=
  let barber :=
    {| barber_name := name;
       work_start := mk_time 9 0 0 0;
       work_end := mk_time 19 0 0 0;
       barber_is_active := true |} in
  let key := next_id (barbers db) in
  ({| barbers := <[ key := barber ]> (barbers db);
      services := services db;
      appointments := appointments db |},
   (key, barber)).

(** [get_all_active]: the rows with their keys, in the order the table
    gives them (the query asks for none). *)
Definition get_all_active (db : Database) : list (Z * Barber) :=
  List.filter (fun row => barber_is_active (snd row))
    (map_to_list (barbers db)).

End BarberService.

(** ** Notions for the statements about booking and cancelling *)

(** Two bookings that are both active and of the same barber do not
    start at the same instant. *)
Definition distinct_starts (a1 a2 : Appointment) : Prop :=
  status_active (status a1) = true -> status_active (status a2) = true ->
  barber_id a1 = barber_id a2 ->
  scheduled_at a1 <> scheduled_at a2.

(** The working window of the specification, section 4.1: the date at
    the provider's working-start time and at its working-end time, the
    seconds of these times included. *)
Definition spec_window_start (barber : Barber) (date : datetime) : datetime :=
  replace_midnight date + time_to_us (work_start barber).

Definition spec_window_end (barber : Barber) (date : datetime) : datetime :=
  replace_midnight date + time_to_us (work_end barber).

(** ** The availability query on the database in use *)

(** [config.py] sets the database to SQLite.  There a [DateTime] column
    and a bound [timedelta] are both text, so the sum
    [Appointment.scheduled_at + timedelta(minutes=30)] of the first
    branch of the WHERE clause is a number, and a number is never
    greater than the text [scheduled_at] it is compared with: the first
    branch holds of no row.  The second branch compares two datetimes in
    the same text format and is as written.  [DatetimeArithmetic] stands
    for a database that adds an interval to a timestamp, which is how
    [availability_clash] reads the clause. *)
Inductive Backend :=
  | DatetimeArithmetic
  | SQLite.

Definition availability_clash_on (backend : Backend) (barber : Z)
    (at_ end_time : datetime) (apt : Appointment) : bool :=
  (barber_id apt =? barber)
  && status_active (status apt)
  && (((scheduled_at apt <=? at_)
       && match backend with
          | DatetimeArithmetic =>
              scheduled_at apt + timedelta_minutes 30 >? at_
          | SQLite => false
          end)
      || ((scheduled_at apt <? end_time)
          && (scheduled_at apt >=? at_))).

Definition check_availability_on (backend : Backend) (db : Database)
    (barber_id : Z) (scheduled_at : datetime) (duration_minutes : Z)
    : result bool :=
  let end_time := scheduled_at + timedelta_minutes duration_minutes in
  match scalar_one_or_none
          (List.filter
             (availability_clash_on backend barber_id scheduled_at end_time)
             (appointments db)) with
  | Ok existing =>
      Ok (match existing with None => true | Some _ => false end)
  | Raise e => Raise e
  end.

(** What an entry of the history says, for the key [key], of the
    appointments [done] the loop has gone through. *)
Definition entry_of (db : Database) (done : list Appointment) (key : Z)
    (bh : BarberHistory.t) : Prop :=
  let mine := List.filter (fun a => barber_id a =? key) done in
  BarberHistory.barber_id bh = key
  /\ BarberHistory.total_visits bh = Z.of_nat (length mine)
  /\ (exists first rest,
         mine = first :: rest
         /\ BarberHistory.last_visit bh = scheduled_at first)
  /\ (exists barber,
         barbers db !! key = Some barber
         /\ BarberHistory.barber_name bh = barber_name barber)
  /\ (forall name : string,
         name ∈ BarberHistory.services_used bh <->
         exists a service,
           In a mine /\ apt_service db a = Some service
           /\ service_name service = name).

(** The invariant of the loop of [get_customer_history_with_barbers]. *)
Definition history_inv (db : Database) (done : list Appointment)
    (barber_history : list (Z * BarberHistory.t)) : Prop :=
  (forall key bh, In (key, bh) barber_history -> entry_of db done key bh)
  /\ (forall a, In a done ->
        AppointmentService.has_key (barber_id a) barber_history = true
        /\ is_Some (apt_service db a))
  /\ NoDup (map fst barber_history).

(** Of the candidates [free], in the order they are tested, those that
    are after the clock reading made for them: the candidate at
    position [i] is compared with reading [first + i]. *)
Definition after_own_reading (utcnow : nat -> datetime) (first : nat)
    (free : list datetime) : list datetime :=
  map fst
    (List.filter (fun ci => fst ci >? utcnow (snd ci))
       (combine free (seq first (length free)))).

(** The database without its appointment rows. *)
Definition without_appointments (db : Database) : Database :=
  {| barbers := barbers db; services := services db; appointments := [] |}.

(** ** More sample data *)

Module Cases.

(** A completed booking of barber 1, stored under id 4. *)
Definition done : Appointment :=
  {| id := 4; customer_id := 2; barber_id := 1; service_id := 1;
     scheduled_at := Sample.at_ 11 0 0; status := COMPLETED; notes := None |}.

(** A shop with one barber, stored under id 1, and no booking. *)
Definition shop_of (barber : Barber) : Database :=
  {| barbers := {[ 1 := barber ]}; services := ∅; appointments := [] |}.

Definition works (from to : time) : Barber :=
  {| barber_name := "Bia"; work_start := from; work_end := to;
     barber_is_active := true |}.

(** A customer with three appointments: two with barber 1, one of them
    cancelled, and one with barber 2. *)
Definition customer : Customer.t :=
  {| Customer.id := 2; Customer.phone := "5511999990000";
     Customer.name := Some "Rui" |}.

Definition session : Session :=
  {| database :=
       {| barbers :=
            {[ 1 := Sample.barber_9_19 true; 2 := Sample.barber_9_19 false ]};
          services := {[ 1 := Sample.service_of 30 ]};
          appointments :=
            [ done;
              {| id := 5; customer_id := 2; barber_id := 2; service_id := 1;
                 scheduled_at := Sample.at_ 15 0 0; status := SCHEDULED;
                 notes := None |};
              {| id := 6; customer_id := 2; barber_id := 1; service_id := 1;
                 scheduled_at := Sample.at_ 16 0 0; status := CANCELLED;
                 notes := None |} ] |};
     customers := [customer];
     conversations :=
       [ {| Conversation.id := 1; Conversation.customer_id := 2;
            Conversation.role := "user"; Conversation.content := "Oi";
            Conversation.created_at := Sample.at_ 8 0 0 |} ] |}.

Definition history : list BarberHistory.t :=
  Eval vm_compute in
    match AppointmentService.get_customer_history_with_barbers session
            "5511999990000" with
    | Returns hist => hist
    | Raises _ => []
    end.

End Cases.

(** * Properties *)

Example sample_slots :
  get_available_slots_reads (Sample.shop true 30 [Sample.booking (Sample.at_ 9 0 0)])
    (Sample.frozen (Sample.at_ 8 0 0)) 1 (Sample.at_ 0 0 0) 30
  = (map (fun k => Sample.at_ 9 30 0 + timedelta_minutes (30 * Z.of_nat k)) (seq 0 19),
     19%nat).
Proof. vm_compute. reflexivity. Qed.

(** ** Arithmetic of the time model *)

Lemma step_pos : 0 < timedelta_minutes 30.
Proof. reflexivity. Qed.

Lemma timedelta_minutes_30 : timedelta_minutes 30 = 1800000000.
Proof. reflexivity. Qed.

Lemma rounds_enough (limit current : Z) :
  limit - current < Z.of_nat (rounds limit current) * timedelta_minutes 30.
Proof.
  unfold rounds. rewrite timedelta_minutes_30.
  pose proof (Z.mod_pos_bound (limit - current) 1800000000 eq_refl).
  pose proof (Z.div_mod (limit - current) 1800000000).
  lia.
Qed.

Lemma replace_second0_aligned (d : Z) :
  d mod US_PER_MINUTE = 0 -> replace_second0 d = d.
Proof.
  intros H. unfold replace_second0.
  pose proof (Z.div_mod d US_PER_MINUTE). 
  assert (US_PER_MINUTE <> 0) by (vm_compute; discriminate). lia.
Qed.

(** ** The loops leave through their own test *)

(** Once [n] rounds are enough, more rounds change nothing. *)
Lemma block_loop_rounds (n m : nat) (limit current : Z) (b : gset Z) :
  limit - current < Z.of_nat n * timedelta_minutes 30 ->
  block_loop (n + m) limit current b = block_loop n limit current b.
Proof.
  revert current b. induction n as [| n IH]; intros current b Hn.
  - destruct m as [| m]; simpl; [reflexivity |].
    destruct (Z.ltb_spec current limit); [lia | reflexivity].
  - simpl. destruct (Z.ltb_spec current limit); [| reflexivity].
    apply IH. pose proof step_pos. lia.
Qed.

Lemma check_loop_rounds (n m : nat) (b : gset Z) (limit t : Z) :
  limit - t < Z.of_nat n * timedelta_minutes 30 ->
  check_loop (n + m) b limit t = check_loop n b limit t.
Proof.
  revert t. induction n as [| n IH]; intros t Hn.
  - destruct m as [| m]; simpl; [reflexivity |].
    destruct (Z.ltb_spec t limit); [lia | reflexivity].
  - simpl. destruct (Z.ltb_spec t limit); [| reflexivity].
    destruct (bool_decide (t ∈ b)); [reflexivity |].
    apply IH. pose proof step_pos. lia.
Qed.

Lemma slot_loop_rounds (n m : nat) utcnow (b : gset Z) (d e t : Z)
    (acc : list Z) (reads : nat) :
  e - timedelta_minutes d + 1 - t < Z.of_nat n * timedelta_minutes 30 ->
  slot_loop (n + m) utcnow b d e t acc reads
  = slot_loop n utcnow b d e t acc reads.
Proof.
  revert t acc reads. induction n as [| n IH]; intros t acc reads Hn.
  - destruct m as [| m]; simpl; [reflexivity |].
    destruct (Z.leb_spec (t + timedelta_minutes d) e); [lia | reflexivity].
  - simpl. destruct (Z.leb_spec (t + timedelta_minutes d) e); [| reflexivity].
    destruct (slot_is_available b t d); [destruct (t >? utcnow reads) |];
      apply IH; pose proof step_pos; lia.
Qed.

(** ** What the block loop adds *)

Lemma block_loop_spec (n : nat) (limit current : Z) (b : gset Z) (x : Z) :
  limit - current < Z.of_nat n * timedelta_minutes 30 ->
  x ∈ block_loop n limit current b <-> x ∈ b \/ blocked_point current limit x.
Proof.
  revert current b. induction n as [| n IH]; intros current b Hn.
  - simpl. split; [auto |]. intros [H | (k & Hk & Hlt & _)]; [exact H |].
    pose proof step_pos. nia.
  - simpl. destruct (Z.ltb_spec current limit) as [Hlt | Hge].
    + rewrite IH by (pose proof step_pos; lia).
      rewrite elem_of_union, elem_of_singleton. split.
      * intros [[H | H] | (k & Hk & Hkl & Hx)].
        -- left; exact H.
        -- right. exists 0. rewrite Z.mul_0_l, Z.add_0_r. auto with zarith.
        -- right. exists (k + 1). repeat split; [lia | lia |].
           rewrite Hx. f_equal. lia.
      * intros [H | (k & Hk & Hkl & Hx)]; [left; left; exact H |].
        destruct (Z.eq_dec k 0) as [-> | Hk0].
        -- left; right. rewrite Hx. f_equal. lia.
        -- right. exists (k - 1). repeat split; [lia | lia |].
           rewrite Hx. f_equal. lia.
    + split; [auto |]. intros [H | (k & Hk & Hkl & _)]; [exact H |].
      pose proof step_pos. nia.
Qed.

Lemma block_appointment_spec (db : Database) (b : gset Z) (apt : Appointment)
    (x : Z) :
  x ∈ block_appointment db b apt <->
  x ∈ b \/ blocked_point (scheduled_at apt)
             (scheduled_at apt + timedelta_minutes (apt_duration db apt)) x.
Proof. unfold block_appointment. apply block_loop_spec, rounds_enough. Qed.

Lemma fold_block_spec (db : Database) (rows : list Appointment) (b : gset Z)
    (x : Z) :
  x ∈ fold_left (block_appointment db) rows b <->
  x ∈ b \/ exists apt, In apt rows /\
             blocked_point (scheduled_at apt)
               (scheduled_at apt + timedelta_minutes (apt_duration db apt)) x.
Proof.
  revert b. induction rows as [| apt rows IH]; intros b; simpl.
  - split; [auto |]. intros [H | (apt & [] & _)]. exact H.
  - rewrite IH, block_appointment_spec. split.
    + intros [[H | H] | (a & Ha & H)]; eauto 6.
    + intros [H | (a & [<- | Ha] & H)]; eauto 6.
Qed.

Lemma blocked_times_of_spec (db : Database) (barber date x : Z) :
  x ∈ blocked_times_of db barber date <->
  exists apt : Appointment,
    In apt (get_barber_appointments db barber date)
    /\ blocked_point (scheduled_at apt)
         (scheduled_at apt + timedelta_minutes (apt_duration db apt)) x.
Proof.
  unfold blocked_times_of. rewrite fold_block_spec. split; [| auto].
  intros [Hempty | H]; [| exact H].
  exfalso. revert Hempty. apply not_elem_of_empty.
Qed.

(** ** The rows [get_barber_appointments] returns *)

Lemma in_get_barber_appointments (db : Database) (barber : Z) (date : Z)
    (apt : Appointment) :
  In apt (get_barber_appointments db barber date) <->
  In apt (appointments db) /\ barber_id apt = barber
  /\ status_active (status apt) = true
  /\ replace_midnight date <= scheduled_at apt
     < replace_midnight date + timedelta_days 1.
Proof.
  unfold get_barber_appointments, order_by_scheduled_at.
  rewrite <- !list_elem_of_In, merge_sort_Permutation, list_elem_of_In.
  rewrite filter_In. unfold on_day_active.
  rewrite !andb_true_iff, Z.eqb_eq, Z.geb_le, Z.ltb_lt, list_elem_of_In.
  tauto.
Qed.

(** ** The availability test of one candidate *)

Lemma check_loop_spec (n : nat) (b : gset Z) (limit t : Z) :
  limit - t < Z.of_nat n * timedelta_minutes 30 ->
  check_loop n b limit t = true <->
  forall k : Z, 0 <= k -> t + k * timedelta_minutes 30 < limit ->
                t + k * timedelta_minutes 30 ∉ b.
Proof.
  revert t. induction n as [| n IH]; intros t Hn.
  - simpl. split; [| reflexivity]. intros _ k Hk Hlt.
    pose proof step_pos. nia.
  - simpl. destruct (Z.ltb_spec t limit) as [Hlt | Hge].
    + destruct (bool_decide_reflect (t ∈ b)) as [Hin | Hout].
      * split; [discriminate |]. intros H. exfalso.
        apply (H 0); [lia | lia |]. rewrite Z.mul_0_l, Z.add_0_r. exact Hin.
      * rewrite IH by (pose proof step_pos; lia). split.
        -- intros H k Hk Hkl. destruct (Z.eq_dec k 0) as [-> | Hk0].
           ++ rewrite Z.mul_0_l, Z.add_0_r. exact Hout.
           ++ replace (t + k * timedelta_minutes 30)
                with (t + timedelta_minutes 30 + (k - 1) * timedelta_minutes 30)
                by lia.
              apply H; lia.
        -- intros H k Hk Hkl.
           replace (t + timedelta_minutes 30 + k * timedelta_minutes 30)
             with (t + (k + 1) * timedelta_minutes 30) by lia.
           apply H; lia.
    + split; [| reflexivity]. intros _ k Hk Hkl. pose proof step_pos. nia.
Qed.

Lemma slot_is_available_spec (b : gset Z) (t d : Z) :
  slot_is_available b t d = true <->
  forall k : Z, 0 <= k -> k * timedelta_minutes 30 < timedelta_minutes d ->
                t + k * timedelta_minutes 30 ∉ b.
Proof.
  unfold slot_is_available. rewrite check_loop_spec by apply rounds_enough.
  split; intros H k Hk Hlt; apply H; lia.
Qed.

(** ** Invariants of the slot loop *)

Lemma appended_weaken utcnow b d e t r0 r1 r2 s :
  (r0 <= r1)%nat ->
  appended utcnow b d e (t + timedelta_minutes 30) r1 r2 s ->
  appended utcnow b d e t r0 r2 s.
Proof.
  intros Hr ((k & Hk & ->) & Hfit & Hfree & i & Hi & Hnow).
  repeat split; try assumption.
  - exists (k + 1). split; lia.
  - exists i. split; [lia | exact Hnow].
Qed.

Lemma slot_loop_inv (n : nat) utcnow (b : gset Z) (d e t : Z)
    (acc : list Z) (reads : nat) :
  exists new : list Z,
    fst (slot_loop n utcnow b d e t acc reads) = acc ++ new
    /\ (reads + length new <= snd (slot_loop n utcnow b d e t acc reads))%nat
    /\ Forall (appended utcnow b d e t reads
                 (snd (slot_loop n utcnow b d e t acc reads))) new
    /\ StronglySorted Z.lt new.
Proof.
  revert t acc reads. induction n as [| n IH]; intros t acc reads.
  - exists []. simpl. rewrite app_nil_r. repeat split; [lia | | constructor].
    constructor.
  - simpl. destruct (Z.leb_spec (t + timedelta_minutes d) e) as [Hfit | Hout].
    2:{ exists []. simpl. rewrite app_nil_r.
        repeat split; [lia | constructor | constructor]. }
    destruct (slot_is_available b t d) eqn:Hfree.
    + destruct (Z.gtb_spec t (utcnow reads)) as [Hnow | Hpast].
      * destruct (IH (t + timedelta_minutes 30) (acc ++ [t]) (S reads))
          as (new & Hfst & Hlen & Hall & Hsorted).
        exists (t :: new). rewrite Hfst, <- app_assoc. simpl.
        repeat split; [lia | |].
        -- constructor.
           ++ repeat split; [exists 0; lia | exact Hfit | exact Hfree |].
              exists reads. split; [lia | lia].
           ++ eapply List.Forall_impl; [| exact Hall].
              intros s Hs. eapply appended_weaken; [| exact Hs]. lia.
        -- constructor; [exact Hsorted |].
           eapply List.Forall_impl; [| exact Hall].
           intros s ((k & Hk & ->) & _). pose proof step_pos. nia.
      * destruct (IH (t + timedelta_minutes 30) acc (S reads))
          as (new & Hfst & Hlen & Hall & Hsorted).
        exists new. repeat split; [exact Hfst | lia | | exact Hsorted].
        eapply List.Forall_impl; [| exact Hall].
        intros s Hs. eapply appended_weaken; [| exact Hs]. lia.
    + destruct (IH (t + timedelta_minutes 30) acc reads)
        as (new & Hfst & Hlen & Hall & Hsorted).
      exists new. repeat split; [exact Hfst | lia | | exact Hsorted].
      eapply List.Forall_impl; [| exact Hall].
      intros s Hs. eapply appended_weaken; [| exact Hs]. lia.
Qed.

(** The loop does not run when the first candidate does not fit. *)
Lemma slot_loop_no_fit (n : nat) utcnow (b : gset Z) (d e t : Z)
    (acc : list Z) (reads : nat) :
  e < t + timedelta_minutes d ->
  slot_loop n utcnow b d e t acc reads = (acc, reads).
Proof.
  intros H. destruct n as [| n]; simpl; [reflexivity |].
  destruct (Z.leb_spec (t + timedelta_minutes d) e); [lia | reflexivity].
Qed.

(** ** Conflict detection *)

Lemma filter_none {A : Type} (f : A -> bool) (l : list A) :
  (forall a, In a l -> f a = false) -> List.filter f l = [].
Proof.
  induction l as [| a l IH]; intros H; simpl; [reflexivity |].
  rewrite (H a) by (left; reflexivity). apply IH.
  intros a' Ha'. apply H. right. exact Ha'.
Qed.

(** [check_availability] answers [True] exactly when no row passes the
    WHERE clause. *)
Lemma check_availability_true (db : Database) (barber at_ d : Z) :
  check_availability db barber at_ d = Ok true <->
  forall apt, In apt (appointments db) ->
              availability_clash barber at_ (at_ + timedelta_minutes d) apt = false.
Proof.
  unfold check_availability. split.
  - intros H apt Hin.
    destruct (availability_clash barber at_ (at_ + timedelta_minutes d) apt) eqn:E;
      [| reflexivity].
    assert (Hf : In apt (List.filter
                (availability_clash barber at_ (at_ + timedelta_minutes d))
                (appointments db))) by (apply filter_In; auto).
    destruct (List.filter _ (appointments db)) as [| a [| a' l]];
      simpl in H; [destruct Hf | discriminate | discriminate].
  - intros H. rewrite filter_none by exact H. reflexivity.
Qed.

(** For a positive candidate duration the WHERE clause is the half-open
    overlap test in which every existing booking lasts thirty minutes. *)
Lemma availability_clash_half_open (barber at_ d : Z) (apt : Appointment) :
  0 < d ->
  availability_clash barber at_ (at_ + timedelta_minutes d) apt
  = (barber_id apt =? barber) && status_active (status apt)
    && ((scheduled_at apt <? at_ + timedelta_minutes d)
        && (scheduled_at apt + timedelta_minutes 30 >? at_)).
Proof.
  intros Hd. unfold availability_clash. f_equal.
  assert (0 < timedelta_minutes d) by (unfold timedelta_minutes, US_PER_MINUTE,
    US_PER_SECOND; lia).
  pose proof step_pos.
  destruct (Z.leb_spec (scheduled_at apt) at_),
    (Z.gtb_spec (scheduled_at apt + timedelta_minutes 30) at_),
    (Z.ltb_spec (scheduled_at apt) (at_ + timedelta_minutes d)),
    (Z.geb_spec (scheduled_at apt) at_); simpl; try reflexivity; lia.
Qed.

(** So the method and the rule of the specification agree on "available"
    as long as every booked service lasts thirty minutes. *)
Lemma check_availability_half_hour_services (db : Database) (barber at_ d : Z) :
  0 < d ->
  (forall apt, In apt (appointments db) -> apt_duration db apt = 30) ->
  check_availability db barber at_ d = Ok true <->
  spec_is_available db barber at_ d = true.
Proof.
  intros Hd Hall. rewrite check_availability_true.
  unfold spec_is_available. rewrite forallb_forall.
  split; intros H apt Hin; specialize (H apt Hin);
    rewrite availability_clash_half_open in * by exact Hd;
    unfold spec_conflict in *; rewrite (Hall apt Hin) in *.
  - rewrite H. reflexivity.
  - apply negb_true_iff in H. exact H.
Qed.

(** When two rows pass the WHERE clause, [scalar_one_or_none] raises. *)
Example check_availability_raises :
  check_availability
    (Sample.shop true 30
       [Sample.booking (Sample.at_ 10 0 0); Sample.booking (Sample.at_ 10 30 0)])
    1 (Sample.at_ 10 0 0) 60
  = Raise MultipleResultsFound.
Proof. vm_compute. reflexivity. Qed.

(** C1. [check_availability] against the half-open rule of the
    specification: barber 1 holds one scheduled booking at 10:00 for a
    60-minute service, and a 30-minute candidate at 10:30 is asked for.
    The rule finds a conflict (the booking runs until 11:00) and the
    method answers that the time is available: the query compares the
    candidate with a fixed thirty minutes after the booked start and
    never reads the booked service's duration. *)
Theorem check_availability_ignores_booked_duration :
  let db := Sample.shop true 60 [Sample.booking (Sample.at_ 10 0 0)] in
  check_availability db 1 (Sample.at_ 10 30 0) 30 = Ok true
  /\ spec_is_available db 1 (Sample.at_ 10 30 0) 30 = false
  /\ Sample.at_ 10 30 0 ∈ blocked_times_of db 1 (Sample.at_ 0 0 0).
Proof. vm_compute. repeat split. Qed.

(** C5. Abutting bookings: when the only active booking of a barber
    starts at [t] with a 30-minute service (10:00-10:30), a 30-minute
    candidate starting at [t] plus thirty minutes (10:30) is available. *)
Theorem abutting_booking_is_available (db : Database) (barber : Z)
    (apt : Appointment) (t : Z) :
  List.filter (fun a => (barber_id a =? barber) && status_active (status a))
    (appointments db) = [apt] ->
  scheduled_at apt = t ->
  apt_duration db apt = 30 ->
  check_availability db barber (t + timedelta_minutes 30) 30 = Ok true.
Proof.
  intros Hone Hat _. apply check_availability_true. intros a Hin.
  unfold availability_clash.
  destruct ((barber_id a =? barber) && status_active (status a)) eqn:Hactive;
    [| reflexivity].
  assert (Ha : In a [apt]) by (rewrite <- Hone; apply filter_In; auto).
  destruct Ha as [<- | []]. rewrite Hat. simpl.
  destruct (Z.leb_spec t (t + timedelta_minutes 30)),
    (Z.gtb_spec (t + timedelta_minutes 30) (t + timedelta_minutes 30)),
    (Z.ltb_spec t (t + timedelta_minutes 30 + timedelta_minutes 30)),
    (Z.geb_spec t (t + timedelta_minutes 30));
    pose proof step_pos; simpl; try reflexivity; lia.
Qed.

Lemma abutting_booking_is_available_witness :
  check_availability
    (Sample.shop true 30 [Sample.booking (Sample.at_ 10 0 0)])
    1 (Sample.at_ 10 0 0 + timedelta_minutes 30) 30 = Ok true.
Proof.
  apply (abutting_booking_is_available
           (Sample.shop true 30 [Sample.booking (Sample.at_ 10 0 0)]) 1
           (Sample.booking (Sample.at_ 10 0 0)) (Sample.at_ 10 0 0));
    reflexivity.
Defined.

(** ** Booking creation *)

Lemma next_id_above (rows : list Appointment) (apt : Appointment) :
  In apt rows -> id apt < next_id rows.
Proof.
  unfold next_id. induction rows as [| a rows IH]; intros Hin; [destruct Hin |].
  simpl. destruct Hin as [-> | Hin]; [lia |]. specialize (IH Hin). lia.
Qed.

(** C2, as the code has it: [create] checks nothing.  Every call stores
    one new row with status [scheduled], a fresh id and the arguments it
    was given, leaves the other tables alone and returns that row. *)
Theorem create_always_persists (db : Database) (customer barber service : Z)
    (start : datetime) (note : option string) :
  let db' := fst (create db customer barber service start note) in
  let apt := snd (create db customer barber service start note) in
  appointments db' = appointments db ++ [apt]
  /\ status apt = SCHEDULED
  /\ customer_id apt = customer /\ barber_id apt = barber
  /\ service_id apt = service /\ scheduled_at apt = start /\ notes apt = note
  /\ (forall old, In old (appointments db) -> id old <> id apt)
  /\ barbers db' = barbers db /\ services db' = services db.
Proof.
  simpl. repeat split.
  intros old Hin Heq. apply next_id_above in Hin. lia.
Qed.

(** C2, counterexample to the claim as stated: barber 1 and service 1
    are active and barber 1 is booked at 10:00; the availability
    precondition fails for a second booking at 10:00, and [create]
    stores it all the same.  Likewise for an inactive barber. *)
Lemma create_persists_when_precondition_fails :
  let db := Sample.shop true 30 [Sample.booking (Sample.at_ 10 0 0)] in
  let db_inactive := Sample.shop false 30 [] in
  check_availability db 1 (Sample.at_ 10 0 0) 30 = Ok false
  /\ spec_book_preconditions db 1 1 (Sample.at_ 10 0 0) = false
  /\ length (appointments (fst (create db 2 1 1 (Sample.at_ 10 0 0) None))) = 2%nat
  /\ spec_book_preconditions db_inactive 1 1 (Sample.at_ 10 0 0) = false
  /\ length (appointments (fst (create db_inactive 2 1 1 (Sample.at_ 10 0 0) None)))
     = 1%nat.
Proof. vm_compute. repeat split. Qed.

(** ** Unknown and inactive barbers *)

Lemma slot_search_without_barber (db : Database) (utcnow : nat -> Z)
    (barber date d : Z) :
  get_by_id db barber = None ->
  get_available_slots_reads db utcnow barber date d = ([], O).
Proof. intros H. unfold get_available_slots_reads. rewrite H. reflexivity. Qed.

(** C3, as the code has it: for a barber id with no row, the method
    returns the empty list, for any date, duration and clock, without
    reading the clock. *)
Theorem unknown_barber_no_slots (db : Database) (utcnow : nat -> Z)
    (barber date d : Z) :
  get_by_id db barber = None ->
  get_available_slots_reads db utcnow barber date d = ([], O).
Proof. apply slot_search_without_barber. Qed.

Lemma unknown_barber_no_slots_witness :
  get_available_slots_reads (Sample.shop true 30 [])
    (Sample.frozen (Sample.at_ 8 0 0)) 7 (Sample.at_ 0 0 0) 30 = ([], O).
Proof. apply unknown_barber_no_slots. reflexivity. Defined.

(** C3, counterexample to the claim as stated: [get_by_id] does not
    look at [is_active], so an inactive barber with no booking gets the
    twenty slots 09:00, ..., 18:30 of the day. *)
Lemma inactive_barber_gets_slots :
  barber_is_active <$> get_by_id (Sample.shop false 30 []) 1 = Some false
  /\ get_available_slots (Sample.shop false 30 [])
       (Sample.frozen (Sample.at_ 8 0 0)) 1 (Sample.at_ 0 0 0) 30
     = map (fun k => Sample.at_ 9 0 0 + timedelta_minutes (30 * Z.of_nat k))
         (seq 0 20).
Proof. vm_compute. split; reflexivity. Qed.

(** ** Slot enumeration *)

(** What [slot_loop_inv] gives for a whole call. *)
Lemma get_available_slots_inv (db : Database) (utcnow : nat -> Z)
    (barber_id date d : Z) (barber : Barber) :
  get_by_id db barber_id = Some barber ->
  let r := get_available_slots_reads db utcnow barber_id date d in
  (length (fst r) <= snd r)%nat
  /\ Forall (appended utcnow (blocked_times_of db barber_id date) d
               (end_of_day barber date) (start_of_day barber date) O (snd r))
       (fst r)
  /\ StronglySorted Z.lt (fst r).
Proof.
  intros Hb. unfold get_available_slots_reads. rewrite Hb. cbv zeta.
  match goal with |- context [slot_loop ?n ?u ?b ?d ?e ?t ?acc ?reads] =>
    destruct (slot_loop_inv n u b d e t acc reads)
      as (new & Hfst & Hlen & Hall & Hsorted)
  end.
  simpl in Hfst, Hlen. rewrite Hfst. auto.
Qed.

(** C7, as the code has it: every returned value is the queried date at
    the hour and minute of [work_start] (its seconds and microseconds
    dropped) plus a non-negative number of 30-minute steps, the service
    started there ends at or before the queried date at the hour and
    minute of [work_end], and the returned list is strictly increasing. *)
Theorem slots_on_grid_fit_and_increase (db : Database) (utcnow : nat -> Z)
    (barber_id date d : Z) (barber : Barber) :
  get_by_id db barber_id = Some barber ->
  Forall (fun slot =>
            (exists k : Z, 0 <= k
               /\ slot = start_of_day barber date + k * timedelta_minutes 30)
            /\ slot + timedelta_minutes d <= end_of_day barber date)
    (get_available_slots db utcnow barber_id date d)
  /\ StronglySorted Z.lt (get_available_slots db utcnow barber_id date d).
Proof.
  intros Hb.
  destruct (get_available_slots_inv db utcnow barber_id date d barber Hb)
    as (_ & Hall & Hsorted).
  split; [| exact Hsorted].
  eapply List.Forall_impl; [| exact Hall].
  intros s (Hgrid & Hfit & _). split; assumption.
Qed.

Lemma slots_on_grid_fit_and_increase_witness :
  let db := Sample.shop true 30 [Sample.booking (Sample.at_ 9 0 0)] in
  let slots :=
    get_available_slots db (Sample.frozen (Sample.at_ 8 0 0)) 1
      (Sample.at_ 13 15 0) 45 in
  Forall (fun slot =>
            (exists k : Z, 0 <= k
               /\ slot = Sample.at_ 9 0 0 + k * timedelta_minutes 30)
            /\ slot + timedelta_minutes 45 <= Sample.at_ 19 0 0) slots
  /\ StronglySorted Z.lt slots.
Proof.
  exact (slots_on_grid_fit_and_increase
           (Sample.shop true 30 [Sample.booking (Sample.at_ 9 0 0)])
           (Sample.frozen (Sample.at_ 8 0 0)) 1 (Sample.at_ 13 15 0) 45
           (Sample.barber_9_19 true) eq_refl).
Defined.

(** C7, counterexample to the claim as stated: for a barber whose
    working day starts at 09:15:45 the method returns 09:15:00,
    09:45:00, ..., 18:15:00, and none of these is the working-start
    instant 09:15:45 plus a whole number of 30-minute steps. *)
Lemma slots_off_the_working_start_grid :
  let barber := Cases.works (mk_time 9 15 45 0) (mk_time 19 0 0 0) in
  let slots :=
    get_available_slots (Cases.shop_of barber)
      (Sample.frozen (Sample.at_ 8 0 0)) 1 (Sample.at_ 0 0 0) 30 in
  spec_window_start barber (Sample.at_ 0 0 0) = Sample.at_ 9 15 45
  /\ slots
     = map (fun k => Sample.at_ 9 15 0 + timedelta_minutes (30 * Z.of_nat k))
         (seq 0 19)
  /\ Forall (fun slot =>
               forall k : Z,
                 slot <> spec_window_start barber (Sample.at_ 0 0 0)
                         + k * timedelta_minutes 30)
       slots.
Proof.
  intros barber slots.
  assert (Hslots : slots
     = map (fun k => Sample.at_ 9 15 0 + timedelta_minutes (30 * Z.of_nat k))
         (seq 0 19)) by (vm_compute; reflexivity).
  split; [vm_compute; reflexivity |]. split; [exact Hslots |].
  rewrite Hslots.
  replace (spec_window_start barber (Sample.at_ 0 0 0))
    with 1728033345000000 by (vm_compute; reflexivity).
  change (timedelta_minutes 30) with 1800000000.
  apply List.Forall_forall. intros slot Hin k Heq.
  assert (Hmod : (slot - 1728033345000000) mod 1800000000 = 0).
  { rewrite Heq.
    replace (1728033345000000 + k * 1800000000 - 1728033345000000)
      with (k * 1800000000) by lia.
    apply Z.mod_mul. discriminate. }
  vm_compute in Hin.
  repeat (destruct Hin as [<- | Hin]; [vm_compute in Hmod; discriminate |]).
  destruct Hin.
Qed.

(** One clock reading is made for each candidate that passes the test
    against [blocked_times]. *)
Lemma slot_loop_reads (n : nat) utcnow (b : gset Z) (d e t : Z)
    (acc : list Z) (reads : nat) :
  snd (slot_loop n utcnow b d e t acc reads)
  = (reads + length (List.filter (fun s => slot_is_available b s d)
                       (candidates n d e t)))%nat.
Proof.
  revert t acc reads. induction n as [| n IH]; intros t acc reads; simpl.
  - lia.
  - destruct (Z.leb_spec (t + timedelta_minutes d) e); simpl; [| lia].
    destruct (slot_is_available b t d); rewrite IH; simpl; lia.
Qed.

(** C8, counterexample to the claim as stated: the clock is read once
    per free candidate and not once per call.  Barber 1 has no booking;
    the clock shows 09:29:59 at its first reading and 09:30:00 from the
    second on.  The call reads it twenty times and leaves 09:30 out,
    while one reading (the first, kept for the whole call) gives 09:30. *)
Lemma clock_is_read_per_candidate :
  let db := Sample.shop true 30 [] in
  let utcnow := fun i : nat =>
    match i with O => Sample.at_ 9 29 59 | S _ => Sample.at_ 9 30 0 end in
  get_available_slots_reads db utcnow 1 (Sample.at_ 0 0 0) 30
  = (map (fun k => Sample.at_ 10 0 0 + timedelta_minutes (30 * Z.of_nat k))
       (seq 0 18), 20%nat)
  /\ get_available_slots db (Sample.frozen (utcnow O)) 1 (Sample.at_ 0 0 0) 30
     = map (fun k => Sample.at_ 9 30 0 + timedelta_minutes (30 * Z.of_nat k))
         (seq 0 19).
Proof. vm_compute. split; reflexivity. Qed.

(** ** Empty and short working windows *)

Lemma time_le_hour_minute (a b : time) :
  valid_time a -> valid_time b -> time_le a b ->
  hour a * US_PER_HOUR + minute a * US_PER_MINUTE
  <= hour b * US_PER_HOUR + minute b * US_PER_MINUTE.
Proof.
  unfold valid_time, time_le, time_to_us.
  change US_PER_HOUR with 3600000000. change US_PER_MINUTE with 60000000.
  change US_PER_SECOND with 1000000. lia.
Qed.

(** C9, as the code has it: when the working-end time is at or before
    the working-start time and the requested duration is positive, or
    when the requested duration is longer than the window between the
    queried date at the hour and minute of [work_start] and at the hour
    and minute of [work_end] (the seconds of both dropped), the method
    returns the empty list (and reads no clock). *)
Theorem empty_or_short_window_no_slots (db : Database) (utcnow : nat -> Z)
    (barber_id date d : Z) (barber : Barber) :
  get_by_id db barber_id = Some barber ->
  valid_time (work_start barber) -> valid_time (work_end barber) ->
  (time_le (work_end barber) (work_start barber) /\ 0 < d)
  \/ end_of_day barber date - start_of_day barber date < timedelta_minutes d ->
  get_available_slots_reads db utcnow barber_id date d = ([], O).
Proof.
  intros Hb Hstart Hend Hcase. unfold get_available_slots_reads. rewrite Hb.
  cbv zeta. apply slot_loop_no_fit.
  destruct Hcase as [[Hle Hd] | Hshort]; [| lia].
  pose proof (time_le_hour_minute _ _ Hend Hstart Hle).
  unfold end_of_day, start_of_day, replace_hour_minute, timedelta_minutes.
  assert (0 < US_PER_MINUTE) by reflexivity. nia.
Qed.

Lemma empty_or_short_window_no_slots_witness :
  get_available_slots_reads
    (Cases.shop_of (Cases.works (mk_time 12 0 0 0) (mk_time 9 30 0 0)))
    (Sample.frozen (Sample.at_ 8 0 0)) 1 (Sample.at_ 0 0 0) 30 = ([], O)
  /\ get_available_slots_reads
       (Cases.shop_of (Cases.works (mk_time 9 0 0 0) (mk_time 9 30 0 0)))
       (Sample.frozen (Sample.at_ 8 0 0)) 1 (Sample.at_ 0 0 0) 45 = ([], O).
Proof.
  split.
  - apply (empty_or_short_window_no_slots _ _ _ _ _
             (Cases.works (mk_time 12 0 0 0) (mk_time 9 30 0 0))).
    + reflexivity.
    + unfold valid_time; simpl; unfold US_PER_SECOND; lia.
    + unfold valid_time; simpl; unfold US_PER_SECOND; lia.
    + left. split; [vm_compute; discriminate | lia].
  - apply (empty_or_short_window_no_slots _ _ _ _ _
             (Cases.works (mk_time 9 0 0 0) (mk_time 9 30 0 0))).
    + reflexivity.
    + unfold valid_time; simpl; unfold US_PER_SECOND; lia.
    + unfold valid_time; simpl; unfold US_PER_SECOND; lia.
    + right. vm_compute. reflexivity.
Defined.

(** C9, counterexample to the claim as stated.  A barber whose working
    day ends when it starts (09:00-09:00), asked for a duration of zero
    minutes before 09:00, is offered the slot 09:00.  And a barber who
    works from 09:00:59 to 09:30:00, a window of 29 minutes and one
    second, is offered 09:00 for a service of 30 minutes: the method
    drops the seconds of the working times. *)
Lemma empty_window_zero_duration_slot :
  let closed := Cases.works (mk_time 9 0 0 0) (mk_time 9 0 0 0) in
  let short := Cases.works (mk_time 9 0 59 0) (mk_time 9 30 0 0) in
  (time_le (work_end closed) (work_start closed)
   /\ get_available_slots (Cases.shop_of closed)
        (Sample.frozen (Sample.at_ 8 0 0)) 1 (Sample.at_ 0 0 0) 0
      = [Sample.at_ 9 0 0])
  /\ (spec_window_end short (Sample.at_ 0 0 0)
      - spec_window_start short (Sample.at_ 0 0 0)
      < timedelta_minutes 30
      /\ get_available_slots (Cases.shop_of short)
           (Sample.frozen (Sample.at_ 8 0 0)) 1 (Sample.at_ 0 0 0) 30
         = [Sample.at_ 9 0 0]).
Proof.
  split; split;
    [vm_compute; discriminate | vm_compute; reflexivity
    | vm_compute; reflexivity | vm_compute; reflexivity].
Qed.

(** ** The blocked set *)

(** C6, as the code has it: the blocked set holds exactly, for each
    booking [get_barber_appointments] returns, the instants
    bookingStart, bookingStart+30m, bookingStart+60m, ... strictly
    before bookingStart + duration, each with its seconds and
    microseconds set to zero; the duration is that of the linked
    service, 30 when there is none.  So a booking whose duration is not
    a multiple of 30 blocks every such point up to the last one before
    its end. *)
Theorem blocked_times_exact (db : Database) (barber date x : Z) :
  x ∈ blocked_times_of db barber date <->
  exists (apt : Appointment) (k : Z),
    In apt (get_barber_appointments db barber date)
    /\ 0 <= k
    /\ scheduled_at apt + k * timedelta_minutes 30
       < scheduled_at apt
         + timedelta_minutes
             (match services db !! service_id apt with
              | Some service => duration_minutes service
              | None => 30
              end)
    /\ x = replace_second0 (scheduled_at apt + k * timedelta_minutes 30).
Proof.
  rewrite blocked_times_of_spec. split.
  - intros (apt & Hin & k & Hk & Hlt & Hx). exists apt, k. auto.
  - intros (apt & k & Hin & Hk & Hlt & Hx).
    exists apt. split; [exact Hin |]. exists k. auto.
Qed.

(** C6, counterexample to the claim as stated: a booking that starts at
    10:00:30 with a 30-minute service puts 10:00:00 into the blocked
    set, and not its own start. *)
Lemma blocked_point_is_truncated :
  let db := Sample.shop true 30 [Sample.booking (Sample.at_ 10 0 30)] in
  get_barber_appointments db 1 (Sample.at_ 0 0 0)
  = [Sample.booking (Sample.at_ 10 0 30)]
  /\ elements (blocked_times_of db 1 (Sample.at_ 0 0 0)) = [Sample.at_ 10 0 0]
  /\ Sample.at_ 10 0 30 ∉ blocked_times_of db 1 (Sample.at_ 0 0 0).
Proof.
  split; [vm_compute; reflexivity |]. split; [vm_compute; reflexivity |].
  rewrite blocked_times_of_spec. intros (apt & Hin & k & Hk & Hlt & Hx).
  apply in_get_barber_appointments in Hin. destruct Hin as ([<- | []] & _).
  revert Hx. unfold replace_second0, Sample.booking, scheduled_at.
  set (t := _ + k * _). intros Hx.
  assert (Hmod : Sample.at_ 10 0 30 mod US_PER_MINUTE = 0).
  { rewrite Hx. apply Z.mod_mul. discriminate. }
  vm_compute in Hmod. discriminate.
Qed.

(** C10. Only active bookings of the barber that start on the queried
    calendar day, midnight included to next midnight excluded, put
    instants into the blocked set; storing one more booking that starts
    before that midnight, however long it lasts, changes neither the
    blocked set nor the slots returned for the day. *)
Theorem only_bookings_starting_that_day_block (db : Database)
    (barber date : Z) :
  (forall x : Z, x ∈ blocked_times_of db barber date ->
     exists apt : Appointment,
       In apt (appointments db) /\ barber_id apt = barber
       /\ status_active (status apt) = true
       /\ replace_midnight date <= scheduled_at apt
          < replace_midnight date + timedelta_days 1
       /\ blocked_point (scheduled_at apt)
            (scheduled_at apt + timedelta_minutes (apt_duration db apt)) x)
  /\ (forall (earlier : Appointment),
        scheduled_at earlier < replace_midnight date ->
        let db' :=
          {| barbers := barbers db; services := services db;
             appointments := appointments db ++ [earlier] |} in
        blocked_times_of db' barber date = blocked_times_of db barber date
        /\ forall utcnow d,
             get_available_slots db' utcnow barber date d
             = get_available_slots db utcnow barber date d).
Proof.
  split.
  - intros x Hx. unfold blocked_times_of in Hx. apply fold_block_spec in Hx.
    destruct Hx as [Hempty | (apt & Hin & Hpt)].
    + exfalso. revert Hempty. apply not_elem_of_empty.
    + apply in_get_barber_appointments in Hin.
      destruct Hin as (Hin & Hb & Hactive & Hday). exists apt. auto.
  - intros earlier Hbefore db'.
    assert (Hblocked :
      blocked_times_of db' barber date = blocked_times_of db barber date).
    { apply set_eq. intros x. unfold blocked_times_of.
      rewrite !fold_block_spec. apply or_iff_compat_l.
      split; intros (apt & Hin & Hpt); exists apt;
        (split; [| exact Hpt]);
        apply in_get_barber_appointments;
        apply in_get_barber_appointments in Hin;
        destruct Hin as (Hin & Hrest); (split; [| exact Hrest]).
      - simpl in Hin. apply in_app_or in Hin.
        destruct Hin as [Hin | [<- | []]]; [exact Hin | lia].
      - simpl. apply in_or_app. left. exact Hin. }
    split; [exact Hblocked |].
    intros utcnow d. unfold get_available_slots, get_available_slots_reads.
    rewrite Hblocked. reflexivity.
Qed.

Example booking_across_midnight :
  get_available_slots (Sample.night_shop [Sample.late_booking])
    (Sample.frozen (Sample.at_ 0 0 0 - 1)) 1 (Sample.at_ 0 0 0) 30
  = [Sample.at_ 0 0 0; Sample.at_ 0 30 0; Sample.at_ 1 0 0; Sample.at_ 1 30 0].
Proof. vm_compute. reflexivity. Qed.

Lemma only_bookings_starting_that_day_block_witness :
  blocked_times_of (Sample.night_shop ([] ++ [Sample.late_booking])) 1
    (Sample.at_ 0 0 0)
  = blocked_times_of (Sample.night_shop []) 1 (Sample.at_ 0 0 0)
  /\ forall utcnow d,
       get_available_slots (Sample.night_shop ([] ++ [Sample.late_booking]))
         utcnow 1 (Sample.at_ 0 0 0) d
       = get_available_slots (Sample.night_shop []) utcnow 1 (Sample.at_ 0 0 0) d.
Proof.
  apply (proj2 (only_bookings_starting_that_day_block (Sample.night_shop []) 1
                  (Sample.at_ 0 0 0)) Sample.late_booking).
  reflexivity.
Defined.

(** ** The boundary case *)

Lemma filter_on_day_active (barber s e : Z) (rows : list Appointment) :
  List.filter (on_day_active barber s e) rows
  = List.filter (fun a => (scheduled_at a >=? s) && (scheduled_at a <? e))
      (List.filter
         (fun a => (barber_id a =? barber) && status_active (status a)) rows).
Proof.
  induction rows as [| a rows IH]; simpl; [reflexivity |].
  unfold on_day_active at 1.
  destruct (barber_id a =? barber), (status_active (status a)); simpl;
    rewrite ?andb_false_r, ?andb_true_r; simpl; rewrite IH; reflexivity.
Qed.

Lemma slot_is_available_30 (b : gset Z) (t : Z) :
  slot_is_available b t 30 = negb (bool_decide (t ∈ b)).
Proof.
  unfold slot_is_available, rounds.
  replace (t + timedelta_minutes 30 - t) with (timedelta_minutes 30) by lia.
  change (Z.to_nat (timedelta_minutes 30 / timedelta_minutes 30 + 1)) with 2%nat.
  simpl. pose proof step_pos.
  destruct (Z.ltb_spec t (t + timedelta_minutes 30)); [| lia].
  destruct (bool_decide (t ∈ b)); [reflexivity |].
  destruct (Z.ltb_spec (t + timedelta_minutes 30) (t + timedelta_minutes 30));
    [lia | reflexivity].
Qed.

(** One round of the slot loop for a 30-minute service. *)
Lemma slot_loop_take (n : nat) utcnow (b : gset Z) (e t : Z) (acc : list Z)
    (reads : nat) :
  t + timedelta_minutes 30 <= e -> t ∉ b -> utcnow reads < t ->
  slot_loop (S n) utcnow b 30 e t acc reads
  = slot_loop n utcnow b 30 e (t + timedelta_minutes 30) (acc ++ [t]) (S reads).
Proof.
  intros Hfit Hfree Hnow. simpl. rewrite slot_is_available_30.
  rewrite bool_decide_eq_false_2 by exact Hfree. simpl.
  destruct (Z.leb_spec (t + timedelta_minutes 30) e); [| lia].
  destruct (Z.gtb_spec t (utcnow reads)); [reflexivity | lia].
Qed.

Lemma slot_loop_skip (n : nat) utcnow (b : gset Z) (e t : Z) (acc : list Z)
    (reads : nat) :
  t + timedelta_minutes 30 <= e -> t ∈ b ->
  slot_loop (S n) utcnow b 30 e t acc reads
  = slot_loop n utcnow b 30 e (t + timedelta_minutes 30) acc reads.
Proof.
  intros Hfit Hin. simpl. rewrite slot_is_available_30.
  rewrite bool_decide_eq_true_2 by exact Hin. simpl.
  destruct (Z.leb_spec (t + timedelta_minutes 30) e); [reflexivity | lia].
Qed.

Lemma replace_hour_minute_aligned (date h m : Z) :
  replace_second0 (replace_hour_minute date h m) = replace_hour_minute date h m.
Proof.
  apply replace_second0_aligned. unfold replace_hour_minute, replace_midnight.
  replace (date / US_PER_DAY * US_PER_DAY + h * US_PER_HOUR + m * US_PER_MINUTE)
    with ((date / US_PER_DAY * 1440 + h * 60 + m) * US_PER_MINUTE)
    by (unfold US_PER_DAY, US_PER_HOUR; lia).
  apply Z.mod_mul. discriminate.
Qed.

(** C4. Working hours 09:00-19:00 and exactly one active booking, at
    09:00 of the queried day with a 30-minute service: asked for a
    30-minute service while the clock is before 09:00, the method
    returns exactly 09:30, 10:00, ..., 18:30 in this order; 09:00 is
    not returned. *)
Theorem boundary_case_0900_booked (db : Database) (utcnow : nat -> Z)
    (barber : Z) (row : Barber) (apt : Appointment) (date : Z) :
  get_by_id db barber = Some row ->
  work_start row = mk_time 9 0 0 0 ->
  work_end row = mk_time 19 0 0 0 ->
  List.filter (fun a => (barber_id a =? barber) && status_active (status a))
    (appointments db) = [apt] ->
  scheduled_at apt = replace_hour_minute date 9 0 ->
  apt_duration db apt = 30 ->
  (forall i : nat, utcnow i < replace_hour_minute date 9 0) ->
  get_available_slots db utcnow barber date 30
  = [ replace_hour_minute date 9 30;
      replace_hour_minute date 10 0; replace_hour_minute date 10 30;
      replace_hour_minute date 11 0; replace_hour_minute date 11 30;
      replace_hour_minute date 12 0; replace_hour_minute date 12 30;
      replace_hour_minute date 13 0; replace_hour_minute date 13 30;
      replace_hour_minute date 14 0; replace_hour_minute date 14 30;
      replace_hour_minute date 15 0; replace_hour_minute date 15 30;
      replace_hour_minute date 16 0; replace_hour_minute date 16 30;
      replace_hour_minute date 17 0; replace_hour_minute date 17 30;
      replace_hour_minute date 18 0; replace_hour_minute date 18 30 ]
  /\ ~ In (replace_hour_minute date 9 0)
         (get_available_slots db utcnow barber date 30).
Proof.
  intros Hrow Hstart Hend Hone Hat Hdur Hclock.
  assert (Hrows : get_barber_appointments db barber date = [apt]).
  { unfold get_barber_appointments. rewrite filter_on_day_active, Hone. simpl.
    rewrite Hat.
    unfold replace_hour_minute, timedelta_days, US_PER_DAY, US_PER_HOUR,
      US_PER_MINUTE, US_PER_SECOND.
    set (M := replace_midnight date).
    destruct (Z.geb_spec (M + 9 * (60 * (60 * 1000000)) + 0 * (60 * 1000000)) M);
      [| lia].
    destruct (Z.ltb_spec (M + 9 * (60 * (60 * 1000000)) + 0 * (60 * 1000000))
                (M + 1 * (24 * (60 * (60 * 1000000))))); [| lia].
    reflexivity. }
  assert (Hblocked :
    blocked_times_of db barber date = {[ replace_hour_minute date 9 0 ]}).
  { apply set_eq. intros x. rewrite blocked_times_of_spec, Hrows.
    rewrite elem_of_singleton. pose proof step_pos. split.
    - intros (a & [<- | []] & k & Hk & Hlt & ->).
      rewrite Hdur in Hlt. assert (k = 0) as -> by nia.
      rewrite Z.mul_0_l, Z.add_0_r, Hat. apply replace_hour_minute_aligned.
    - intros ->. exists apt. split; [left; reflexivity |]. exists 0.
      rewrite Hdur, Z.mul_0_l, Z.add_0_r, Hat.
      rewrite replace_hour_minute_aligned. repeat split; lia. }
  match goal with |- ?lhs = ?rhs /\ _ =>
    assert (Hslots : lhs = rhs); [| split; [exact Hslots |]]
  end.
  - unfold get_available_slots, get_available_slots_reads.
    rewrite Hrow, Hblocked. unfold start_of_day, end_of_day.
    rewrite Hstart, Hend. simpl hour. simpl minute.
    revert Hclock. unfold replace_hour_minute, rounds.
    change (timedelta_minutes 30) with 1800000000.
    change US_PER_HOUR with 3600000000. change US_PER_MINUTE with 60000000.
    set (M := replace_midnight date). intros Hclock.
    replace (M + 19 * 3600000000 + 0 * 60000000 - 1800000000 + 1
             - (M + 9 * 3600000000 + 0 * 60000000))
      with 34200000001 by lia.
    change (Z.to_nat (34200000001 / 1800000000 + 1)) with 20%nat.
    rewrite slot_loop_skip
      by (change (timedelta_minutes 30) with 1800000000;
          first [lia | apply elem_of_singleton; reflexivity]).
    do 19 (rewrite slot_loop_take
             by (change (timedelta_minutes 30) with 1800000000;
                 first
                   [ lia
                   | rewrite elem_of_singleton; lia
                   | match goal with |- utcnow ?i < _ =>
                       specialize (Hclock i); lia end ])).
    simpl. change (timedelta_minutes 30) with 1800000000.
    repeat (f_equal; try lia).
  - rewrite Hslots. unfold replace_hour_minute.
    change US_PER_HOUR with 3600000000. change US_PER_MINUTE with 60000000.
    simpl. intros H. repeat (destruct H as [H | H]; [lia |]). exact H.
Qed.

Lemma boundary_case_0900_booked_witness :
  let db := Sample.shop true 30 [Sample.booking (Sample.at_ 9 0 0)] in
  let date := Sample.at_ 13 15 0 in
  get_available_slots db (Sample.frozen (Sample.at_ 8 0 0)) 1 date 30
  = [ replace_hour_minute date 9 30;
      replace_hour_minute date 10 0; replace_hour_minute date 10 30;
      replace_hour_minute date 11 0; replace_hour_minute date 11 30;
      replace_hour_minute date 12 0; replace_hour_minute date 12 30;
      replace_hour_minute date 13 0; replace_hour_minute date 13 30;
      replace_hour_minute date 14 0; replace_hour_minute date 14 30;
      replace_hour_minute date 15 0; replace_hour_minute date 15 30;
      replace_hour_minute date 16 0; replace_hour_minute date 16 30;
      replace_hour_minute date 17 0; replace_hour_minute date 17 30;
      replace_hour_minute date 18 0; replace_hour_minute date 18 30 ]
  /\ ~ In (replace_hour_minute date 9 0)
         (get_available_slots db (Sample.frozen (Sample.at_ 8 0 0)) 1 date 30).
Proof.
  apply (boundary_case_0900_booked
           (Sample.shop true 30 [Sample.booking (Sample.at_ 9 0 0)])
           (Sample.frozen (Sample.at_ 8 0 0)) 1 (Sample.barber_9_19 true)
           (Sample.booking (Sample.at_ 9 0 0)) (Sample.at_ 13 15 0));
    reflexivity.
Defined.

(** ** The rounds given to the loops are enough *)

(** With the rounds [block_appointment], [slot_is_available] and
    [get_available_slots_reads] give them, the three loops end because
    their test fails: any number of further rounds gives the same
    result. *)
Lemma block_appointment_rounds (m : nat) (limit current : Z) (b : gset Z) :
  block_loop (rounds limit current + m) limit current b
  = block_loop (rounds limit current) limit current b.
Proof. apply block_loop_rounds, rounds_enough. Qed.

Lemma slot_is_available_rounds (m : nat) (b : gset Z) (limit t : Z) :
  check_loop (rounds limit t + m) b limit t
  = check_loop (rounds limit t) b limit t.
Proof. apply check_loop_rounds, rounds_enough. Qed.

Lemma get_available_slots_rounds (m : nat) utcnow (b : gset Z) (d e t : Z)
    (acc : list Z) (reads : nat) :
  slot_loop (rounds (e - timedelta_minutes d + 1) t + m) utcnow b d e t acc reads
  = slot_loop (rounds (e - timedelta_minutes d + 1) t) utcnow b d e t acc reads.
Proof. apply slot_loop_rounds, rounds_enough. Qed.

(** * Further properties of the services *)

(** ** Cancelling *)

Lemma scalar_one_or_none_some {A : Type} (rows : list A) (row : A) :
  scalar_one_or_none rows = Ok (Some row) -> rows = [row].
Proof.
  destruct rows as [| r [| r' rows]]; simpl; intros H;
    [discriminate | injection H as -> | discriminate]. reflexivity.
Qed.

Lemma scalar_one_or_none_none {A : Type} (rows : list A) :
  scalar_one_or_none rows = Ok None -> rows = [].
Proof.
  destruct rows as [| r [| r' rows]]; simpl; intros H;
    [reflexivity | discriminate | discriminate].
Qed.

Lemma update_status_other (i : Z) (s : AppointmentStatus)
    (rows : list Appointment) :
  (forall apt, In apt rows -> id apt <> i) ->
  AppointmentService.update_status i s rows = rows.
Proof.
  induction rows as [| a rows IH]; intros H; simpl; [reflexivity |].
  destruct (Z.eqb_spec (id a) i) as [Heq | _].
  - exfalso. apply (H a); [left; reflexivity | exact Heq].
  - f_equal. apply IH. intros x Hx. apply H. right. exact Hx.
Qed.

Lemma filter_update_status (i : Z) (s : AppointmentStatus)
    (rows : list Appointment) :
  List.filter (fun apt => id apt =? i) (AppointmentService.update_status i s rows)
  = map (AppointmentService.with_status s)
      (List.filter (fun apt => id apt =? i) rows).
Proof.
  induction rows as [| a rows IH]; simpl; [reflexivity |].
  destruct (Z.eqb_spec (id a) i) as [Heq | Hne]; simpl.
  - destruct (Z.eqb_spec (id a) i); [| contradiction]. simpl. f_equal. exact IH.
  - destruct (Z.eqb_spec (id a) i); [contradiction | exact IH].
Qed.

Lemma update_status_twice (i : Z) (s : AppointmentStatus)
    (rows : list Appointment) :
  AppointmentService.update_status i s (AppointmentService.update_status i s rows)
  = AppointmentService.update_status i s rows.
Proof.
  induction rows as [| a rows IH]; simpl; [reflexivity |].
  rewrite IH. f_equal.
  destruct (Z.eqb_spec (id a) i) as [Heq | Hne]; simpl.
  - destruct (Z.eqb_spec (id a) i); [reflexivity | contradiction].
  - destruct (Z.eqb_spec (id a) i); [contradiction | reflexivity].
Qed.

(** A row of the table after an update of statuses to [CANCELLED] is a
    row of the table before, or is not active. *)
Lemma in_update_cancelled (i : Z) (rows : list Appointment) (x : Appointment) :
  In x (AppointmentService.update_status i CANCELLED rows) ->
  In x rows \/ status_active (status x) = false.
Proof.
  unfold AppointmentService.update_status. rewrite in_map_iff.
  intros (a & Hx & Hin). destruct (id a =? i).
  - right. rewrite <- Hx. reflexivity.
  - left. rewrite <- Hx. exact Hin.
Qed.

Lemma cancel_tables (db db' : Database) (i : Z) (r : option Appointment) :
  AppointmentService.cancel db i = Ok (db', r) ->
  barbers db' = barbers db /\ services db' = services db
  /\ forall x, In x (appointments db') ->
       In x (appointments db) \/ status_active (status x) = false.
Proof.
  unfold AppointmentService.cancel.
  destruct (AppointmentService.get_by_id db i) as [[apt |] | e];
    intros H; [| | discriminate]; injection H as <- <-.
  - simpl. repeat split. apply in_update_cancelled.
  - repeat split. intros x Hx. left. exact Hx.
Qed.

(** Cancelling an id no row has returns [None] and changes nothing. *)
Theorem cancel_unknown_id (db : Database) (i : Z) :
  (forall apt, In apt (appointments db) -> id apt <> i) ->
  AppointmentService.cancel db i = Ok (db, None).
Proof.
  intros H. unfold AppointmentService.cancel, AppointmentService.get_by_id.
  rewrite filter_none; [reflexivity |].
  intros a Ha. apply Z.eqb_neq. apply H. exact Ha.
Qed.

Lemma cancel_unknown_id_witness :
  AppointmentService.cancel
    (Sample.shop true 30 [Sample.booking (Sample.at_ 10 0 0)]) 5
  = Ok (Sample.shop true 30 [Sample.booking (Sample.at_ 10 0 0)], None).
Proof.
  apply cancel_unknown_id. intros apt [<- | []]. simpl. discriminate.
Defined.

Lemma cancel_row (db : Database) (before after : list Appointment)
    (apt : Appointment) :
  appointments db = before ++ apt :: after ->
  (forall x, In x (before ++ after) -> id x <> id apt) ->
  AppointmentService.cancel db (id apt)
  = Ok ({| barbers := barbers db;
           services := services db;
           appointments :=
             before ++ AppointmentService.with_status CANCELLED apt :: after |},
        Some (AppointmentService.with_status CANCELLED apt)).
Proof.
  intros Hrows Hother.
  assert (Hb : forall x, In x before -> id x <> id apt)
    by (intros x Hx; apply Hother, in_or_app; left; exact Hx).
  assert (Ha : forall x, In x after -> id x <> id apt)
    by (intros x Hx; apply Hother, in_or_app; right; exact Hx).
  unfold AppointmentService.cancel, AppointmentService.get_by_id.
  rewrite Hrows, List.filter_app. simpl. rewrite Z.eqb_refl.
  rewrite !filter_none
    by (intros a Hin; apply Z.eqb_neq; auto).
  simpl. do 2 f_equal. f_equal.
  unfold AppointmentService.update_status. rewrite map_app. simpl.
  rewrite Z.eqb_refl. f_equal; [| f_equal].
  - apply (update_status_other (id apt) CANCELLED before Hb).
  - apply (update_status_other (id apt) CANCELLED after Ha).
Qed.

(** Cancelling the id of a stored booking sets the status of that row
    to [CANCELLED], whatever it was, keeps the id, customer, barber,
    service, start and notes of that row, leaves every other row as it
    is and returns the changed row. *)
Theorem cancel_marks_cancelled (db : Database) (before after : list Appointment)
    (apt : Appointment) :
  appointments db = before ++ apt :: after ->
  (forall x, In x (before ++ after) -> id x <> id apt) ->
  AppointmentService.cancel db (id apt)
  = Ok ({| barbers := barbers db;
           services := services db;
           appointments :=
             before ++ AppointmentService.with_status CANCELLED apt :: after |},
        Some (AppointmentService.with_status CANCELLED apt)).
Proof. apply cancel_row. Qed.

Lemma cancel_marks_cancelled_witness :
  AppointmentService.cancel
    (Sample.shop true 30 [Sample.booking (Sample.at_ 10 0 0); Cases.done]) 4
  = Ok (Sample.shop true 30
          [Sample.booking (Sample.at_ 10 0 0);
           AppointmentService.with_status CANCELLED Cases.done],
        Some (AppointmentService.with_status CANCELLED Cases.done)).
Proof.
  apply (cancel_marks_cancelled
           (Sample.shop true 30
              [Sample.booking (Sample.at_ 10 0 0); Cases.done])
           [Sample.booking (Sample.at_ 10 0 0)] [] Cases.done).
  - reflexivity.
  - intros x [<- | []]. simpl. discriminate.
Defined.

(** Cancelling is idempotent: a second call with the same id returns
    what the first returned and leaves the database as the first left
    it. *)
Theorem cancel_idempotent (db db' : Database) (i : Z) (r : option Appointment) :
  AppointmentService.cancel db i = Ok (db', r) ->
  AppointmentService.cancel db' i = Ok (db', r).
Proof.
  unfold AppointmentService.cancel at 1.
  destruct (AppointmentService.get_by_id db i) as [[apt |] | e] eqn:Hget;
    intros H; [| | discriminate]; injection H as <- <-.
  - apply scalar_one_or_none_some in Hget.
    unfold AppointmentService.cancel, AppointmentService.get_by_id. simpl.
    rewrite filter_update_status, Hget. simpl.
    rewrite update_status_twice. reflexivity.
  - unfold AppointmentService.cancel. rewrite Hget. reflexivity.
Qed.

Lemma cancel_idempotent_witness :
  AppointmentService.cancel
    (Sample.shop true 30
       [AppointmentService.with_status CANCELLED
          (Sample.booking (Sample.at_ 10 0 0))]) 1
  = Ok (Sample.shop true 30
          [AppointmentService.with_status CANCELLED
             (Sample.booking (Sample.at_ 10 0 0))],
        Some (AppointmentService.with_status CANCELLED
                (Sample.booking (Sample.at_ 10 0 0)))).
Proof.
  apply (cancel_idempotent
           (Sample.shop true 30 [Sample.booking (Sample.at_ 10 0 0)])).
  reflexivity.
Defined.

(** Cancelling only frees time: a start the availability check accepted
    before is accepted after, and the blocked set of no barber and no
    day grows. *)
Theorem cancel_only_frees_time (db db' : Database) (i : Z)
    (r : option Appointment) :
  AppointmentService.cancel db i = Ok (db', r) ->
  (forall barber t d,
      check_availability db barber t d = Ok true ->
      check_availability db' barber t d = Ok true)
  /\ (forall barber date,
        blocked_times_of db' barber date ⊆ blocked_times_of db barber date).
Proof.
  intros Hcancel.
  destruct (cancel_tables db db' i r Hcancel) as (_ & Hserv & Hrows). split.
  - intros barber t d. rewrite !check_availability_true. intros H x Hx.
    destruct (Hrows x Hx) as [Hold | Hoff]; [apply H; exact Hold |].
    unfold availability_clash. rewrite Hoff, andb_false_r. reflexivity.
  - intros barber date x. rewrite !blocked_times_of_spec.
    intros (apt & Hin & Hpt). exists apt.
    apply in_get_barber_appointments in Hin.
    destruct Hin as (Hin & Hb & Hactive & Hday). split.
    + apply in_get_barber_appointments.
      destruct (Hrows apt Hin) as [Hold | Hoff]; [auto | congruence].
    + unfold apt_duration, apt_service in *. rewrite <- Hserv. exact Hpt.
Qed.

Lemma cancel_only_frees_time_witness :
  let db := Sample.shop true 30 [Sample.booking (Sample.at_ 10 0 0)] in
  let db' :=
    Sample.shop true 30
      [AppointmentService.with_status CANCELLED
         (Sample.booking (Sample.at_ 10 0 0))] in
  (forall barber t d,
      check_availability db barber t d = Ok true ->
      check_availability db' barber t d = Ok true)
  /\ (forall barber date,
        blocked_times_of db' barber date ⊆ blocked_times_of db barber date).
Proof.
  apply (cancel_only_frees_time
           (Sample.shop true 30 [Sample.booking (Sample.at_ 10 0 0)]) _ 1
           (Some (AppointmentService.with_status CANCELLED
                    (Sample.booking (Sample.at_ 10 0 0))))).
  reflexivity.
Defined.

(** ** Booking, then checking or cancelling *)

Lemma clash_of_inactive (barber t e : Z) (apt : Appointment) :
  status_active (status apt) = false ->
  availability_clash barber t e apt = false.
Proof.
  intros H. unfold availability_clash. rewrite H, andb_false_r. reflexivity.
Qed.

Lemma on_day_of_inactive (barber s e : Z) (apt : Appointment) :
  status_active (status apt) = false -> on_day_active barber s e apt = false.
Proof. intros H. unfold on_day_active. rewrite H, andb_false_r. reflexivity. Qed.

(** Booking and cancelling the booking at once: the cancel finds the new
    row, and afterwards the availability check and the slot search
    answer as they did before the booking. *)
Theorem create_then_cancel_restores (db : Database) (customer barber service : Z)
    (start : datetime) (note : option string) :
  let db1 := fst (create db customer barber service start note) in
  let apt := snd (create db customer barber service start note) in
  exists db2 : Database,
    AppointmentService.cancel db1 (id apt)
    = Ok (db2, Some (AppointmentService.with_status CANCELLED apt))
    /\ (forall b t d, check_availability db2 b t d = check_availability db b t d)
    /\ (forall utcnow b date d,
          get_available_slots_reads db2 utcnow b date d
          = get_available_slots_reads db utcnow b date d).
Proof.
  intros db1 apt. eexists. split; [| split].
  - apply (cancel_row db1 (appointments db) [] apt); [reflexivity |].
    intros x Hx. rewrite app_nil_r in Hx. apply next_id_above in Hx.
    simpl. lia.
  - intros b t d. unfold check_availability. simpl.
    rewrite List.filter_app. simpl.
    rewrite clash_of_inactive by reflexivity. rewrite app_nil_r. reflexivity.
  - intros utcnow b date d.
    unfold get_available_slots_reads, blocked_times_of, get_barber_appointments.
    simpl. rewrite List.filter_app. simpl.
    rewrite on_day_of_inactive by reflexivity. rewrite app_nil_r. reflexivity.
Qed.

Lemma check_availability_on_true (backend : Backend) (db : Database)
    (barber at_ d : Z) :
  check_availability_on backend db barber at_ d = Ok true <->
  forall apt, In apt (appointments db) ->
    availability_clash_on backend barber at_ (at_ + timedelta_minutes d) apt
    = false.
Proof.
  unfold check_availability_on. split.
  - intros H apt Hin.
    destruct (availability_clash_on backend barber at_
                (at_ + timedelta_minutes d) apt) eqn:E; [| reflexivity].
    assert (Hf : In apt (List.filter
                (availability_clash_on backend barber at_
                   (at_ + timedelta_minutes d))
                (appointments db))) by (apply filter_In; auto).
    destruct (List.filter _ (appointments db)) as [| a [| a' l]];
      simpl in H; [destruct Hf | discriminate | discriminate].
  - intros H. rewrite filter_none by exact H. reflexivity.
Qed.

(** On a database with datetime arithmetic the query is the one
    [check_availability] models. *)
Lemma check_availability_on_arithmetic (db : Database) (barber at_ d : Z) :
  check_availability_on DatetimeArithmetic db barber at_ d
  = check_availability db barber at_ d.
Proof. reflexivity. Qed.

(** A booking of the barber that is active and starts at the instant
    asked for passes the second branch of the WHERE clause, on either
    database, when the duration asked for is positive. *)
Lemma clash_on_same_start (backend : Backend) (barber t d : Z)
    (apt : Appointment) :
  0 < d -> barber_id apt = barber -> status_active (status apt) = true ->
  scheduled_at apt = t ->
  availability_clash_on backend barber t (t + timedelta_minutes d) apt = true.
Proof.
  intros Hd Hb Hs Ht. unfold availability_clash_on.
  rewrite Hb, Z.eqb_refl, Hs, Ht. simpl.
  assert (0 < timedelta_minutes d)
    by (unfold timedelta_minutes, US_PER_MINUTE, US_PER_SECOND; lia).
  destruct (Z.ltb_spec t (t + timedelta_minutes d)); [| lia].
  destruct (Z.geb_spec t t); [| lia]. apply orb_true_r.
Qed.

(** Once a booking is stored, the availability check never again
    answers [True] for its barber, its start and a positive duration: it
    answers [False] or raises.  This holds on SQLite, where the first
    branch of the WHERE clause matches no row, and with datetime
    arithmetic. *)
Theorem created_start_is_taken (backend : Backend) (db : Database)
    (customer barber service : Z) (start : datetime) (note : option string)
    (d : Z) :
  0 < d ->
  check_availability_on backend
    (fst (create db customer barber service start note)) barber start d
  <> Ok true.
Proof.
  intros Hd. rewrite check_availability_on_true. intros H.
  specialize (H (snd (create db customer barber service start note))).
  simpl in H. rewrite in_app_iff in H.
  specialize (H (or_intror (or_introl eq_refl))).
  rewrite clash_on_same_start in H by (auto; reflexivity). discriminate.
Qed.

Lemma created_start_is_taken_witness :
  check_availability_on SQLite
    (fst (create (Sample.shop true 30 []) 2 1 1 (Sample.at_ 10 0 0) None))
    1 (Sample.at_ 10 0 0) 30
  <> Ok true.
Proof.
  apply (created_start_is_taken SQLite (Sample.shop true 30 []) 2 1 1
           (Sample.at_ 10 0 0) None 30).
  lia.
Defined.

Lemma ordered_pairs_snoc {A : Type} (R : A -> A -> Prop) (l : list A) (x : A) :
  ForallOrdPairs R l -> Forall (fun a => R a x) l -> ForallOrdPairs R (l ++ [x]).
Proof.
  induction 1 as [| a l Ha Hl IH]; intros Hx; simpl.
  - constructor; constructor.
  - apply Forall_cons_1 in Hx. destruct Hx as [Hax Hx].
    constructor; [| apply IH; exact Hx].
    apply Forall_app. split; [exact Ha | constructor; [exact Hax | constructor]].
Qed.

(** Booking behind the availability check never gives a barber two
    active bookings with the same start: when no two active bookings of
    one barber start at the same instant and the check answers [True]
    for a positive duration, the same holds after [create] stored the
    booking.  This holds on SQLite and with datetime arithmetic. *)
Theorem guarded_create_keeps_starts_distinct (backend : Backend)
    (db : Database) (customer barber service : Z) (start : datetime)
    (note : option string) (d : Z) :
  ForallOrdPairs distinct_starts (appointments db) ->
  0 < d ->
  check_availability_on backend db barber start d = Ok true ->
  ForallOrdPairs distinct_starts
    (appointments (fst (create db customer barber service start note))).
Proof.
  intros Hinv Hd Hfree. simpl. apply ordered_pairs_snoc; [exact Hinv |].
  apply List.Forall_forall. intros a Hin Hactive _ Hbarber Hsame. simpl in *.
  rewrite check_availability_on_true in Hfree. specialize (Hfree a Hin).
  rewrite clash_on_same_start in Hfree by assumption. discriminate.
Qed.

Lemma guarded_create_keeps_starts_distinct_witness :
  ForallOrdPairs distinct_starts
    (appointments
       (fst (create (Sample.shop true 30 [Sample.booking (Sample.at_ 10 0 0)])
               2 1 1 (Sample.at_ 10 15 0) None))).
Proof.
  apply (guarded_create_keeps_starts_distinct SQLite
           (Sample.shop true 30 [Sample.booking (Sample.at_ 10 0 0)])
           2 1 1 (Sample.at_ 10 15 0) None 30).
  - simpl. constructor; constructor.
  - lia.
  - reflexivity.
Defined.

Lemma scalar_one_or_none_two {A : Type} (l1 l2 l3 : list A) (a1 a2 : A) :
  scalar_one_or_none (l1 ++ a1 :: l2 ++ a2 :: l3) = Raise MultipleResultsFound.
Proof.
  destruct l1 as [| x [| y l1]]; simpl; try reflexivity;
    destruct l2 as [| z l2]; reflexivity.
Qed.

(** The availability check raises instead of answering [False] when two
    stored active bookings of the barber both start inside the span
    asked for. *)
Theorem check_availability_raises_on_two_clashes (db : Database)
    (barber t d : Z) (l1 l2 l3 : list Appointment) (a1 a2 : Appointment) :
  appointments db = l1 ++ a1 :: l2 ++ a2 :: l3 ->
  barber_id a1 = barber -> status_active (status a1) = true ->
  t <= scheduled_at a1 < t + timedelta_minutes d ->
  barber_id a2 = barber -> status_active (status a2) = true ->
  t <= scheduled_at a2 < t + timedelta_minutes d ->
  check_availability db barber t d = Raise MultipleResultsFound.
Proof.
  intros Hrows Hb1 Hs1 Ht1 Hb2 Hs2 Ht2.
  assert (Hclash : forall a, barber_id a = barber ->
            status_active (status a) = true ->
            t <= scheduled_at a < t + timedelta_minutes d ->
            availability_clash barber t (t + timedelta_minutes d) a = true).
  { intros a Hb Hs Ht. unfold availability_clash.
    rewrite Hb, Z.eqb_refl, Hs. simpl.
    destruct (Z.ltb_spec (scheduled_at a) (t + timedelta_minutes d)); [| lia].
    destruct (Z.geb_spec (scheduled_at a) t); [| lia].
    apply orb_true_r. }
  unfold check_availability. rewrite Hrows.
  rewrite List.filter_app. simpl. rewrite (Hclash a1 Hb1 Hs1 Ht1).
  rewrite List.filter_app. simpl. rewrite (Hclash a2 Hb2 Hs2 Ht2).
  rewrite scalar_one_or_none_two. reflexivity.
Qed.

Lemma check_availability_raises_on_two_clashes_witness :
  check_availability
    (Sample.shop true 30
       [Sample.booking (Sample.at_ 10 0 0); Sample.booking (Sample.at_ 10 30 0)])
    1 (Sample.at_ 10 0 0) 60
  = Raise MultipleResultsFound.
Proof.
  apply (check_availability_raises_on_two_clashes _ _ _ _ [] [] []
           (Sample.booking (Sample.at_ 10 0 0))
           (Sample.booking (Sample.at_ 10 30 0)));
    try reflexivity; vm_compute; split; congruence.
Defined.

(** ** More on the slot search *)

(** With enough rounds, a candidate on the grid that fits the window,
    passes the test against the blocked set and is after every clock
    reading is appended. *)
Lemma slot_loop_complete (n : nat) utcnow (b : gset Z) (d e t : Z)
    (acc : list Z) (reads : nat) (k : Z) :
  e - timedelta_minutes d + 1 - t < Z.of_nat n * timedelta_minutes 30 ->
  0 <= k ->
  t + k * timedelta_minutes 30 + timedelta_minutes d <= e ->
  slot_is_available b (t + k * timedelta_minutes 30) d = true ->
  (forall i : nat, utcnow i < t + k * timedelta_minutes 30) ->
  In (t + k * timedelta_minutes 30) (fst (slot_loop n utcnow b d e t acc reads)).
Proof.
  revert t acc reads k.
  induction n as [| n IH]; intros t acc reads k Hn Hk Hfit Hfree Hnow.
  - pose proof step_pos. nia.
  - pose proof step_pos as Hstep. simpl.
    destruct (Z.leb_spec (t + timedelta_minutes d) e) as [_ | Hout]; [| nia].
    destruct (Z.eq_dec k 0) as [-> | Hk0].
    + rewrite Z.mul_0_l, Z.add_0_r in *. rewrite Hfree.
      destruct (Z.gtb_spec t (utcnow reads)) as [_ | Hpast];
        [| specialize (Hnow reads); lia].
      destruct (slot_loop_inv n utcnow b d e (t + timedelta_minutes 30)
                  (acc ++ [t]) (S reads)) as (new & -> & _).
      rewrite !in_app_iff. left; right; left. reflexivity.
    + replace (t + k * timedelta_minutes 30)
        with (t + timedelta_minutes 30 + (k - 1) * timedelta_minutes 30) in *
        by lia.
      destruct (slot_is_available b t d); [destruct (t >? utcnow reads) |];
        apply IH; try assumption; lia.
Qed.

(** When the clock shows the same instant at every reading, the method
    returns exactly the instants that are on the 30-minute grid from the
    queried date at the hour and minute of [work_start] (its seconds
    dropped), leave room for the service before the queried date at the
    hour and minute of [work_end], have none of their 30-minute points
    in the blocked set and are after that instant. *)
Theorem slots_exact_for_one_reading (db : Database) (now : Z)
    (barber_id date d : Z) (barber : Barber) (slot : Z) :
  get_by_id db barber_id = Some barber ->
  In slot (get_available_slots db (fun _ => now) barber_id date d) <->
  (exists k : Z, 0 <= k
     /\ slot = start_of_day barber date + k * timedelta_minutes 30)
  /\ slot + timedelta_minutes d <= end_of_day barber date
  /\ (forall j : Z, 0 <= j -> j * timedelta_minutes 30 < timedelta_minutes d ->
        slot + j * timedelta_minutes 30 ∉ blocked_times_of db barber_id date)
  /\ now < slot.
Proof.
  intros Hb. split.
  - intros Hin.
    destruct (get_available_slots_inv db (fun _ => now) barber_id date d barber Hb)
      as (_ & Hall & _).
    rewrite List.Forall_forall in Hall.
    destruct (Hall slot Hin) as (Hgrid & Hfit & Hfree & i & _ & Hnow).
    rewrite slot_is_available_spec in Hfree. auto.
  - intros ((k & Hk & ->) & Hfit & Hfree & Hnow).
    unfold get_available_slots, get_available_slots_reads. rewrite Hb. cbv zeta.
    apply slot_loop_complete; try assumption.
    + apply rounds_enough.
    + apply slot_is_available_spec. exact Hfree.
    + intros _. exact Hnow.
Qed.

Lemma slots_exact_for_one_reading_witness :
  In (Sample.at_ 9 30 0)
    (get_available_slots
       (Sample.shop true 30 [Sample.booking (Sample.at_ 9 0 0)])
       (fun _ => Sample.at_ 8 0 0) 1 (Sample.at_ 0 0 0) 30)
  <->
  (exists k : Z, 0 <= k
     /\ Sample.at_ 9 30 0
        = start_of_day (Sample.barber_9_19 true) (Sample.at_ 0 0 0)
          + k * timedelta_minutes 30)
  /\ Sample.at_ 9 30 0 + timedelta_minutes 30
     <= end_of_day (Sample.barber_9_19 true) (Sample.at_ 0 0 0)
  /\ (forall j : Z, 0 <= j -> j * timedelta_minutes 30 < timedelta_minutes 30 ->
        Sample.at_ 9 30 0 + j * timedelta_minutes 30
        ∉ blocked_times_of
            (Sample.shop true 30 [Sample.booking (Sample.at_ 9 0 0)])
            1 (Sample.at_ 0 0 0))
  /\ Sample.at_ 8 0 0 < Sample.at_ 9 30 0.
Proof.
  apply (slots_exact_for_one_reading
           (Sample.shop true 30 [Sample.booking (Sample.at_ 9 0 0)])
           (Sample.at_ 8 0 0) 1 (Sample.at_ 0 0 0) 30
           (Sample.barber_9_19 true) (Sample.at_ 9 30 0)).
  reflexivity.
Defined.

(** Whatever the clock does, no 30-minute point of a returned slot is
    an instant an active booking of the day blocks: the minute of its
    start or of a later 30-minute point before its end. *)
Theorem returned_slot_avoids_bookings (db : Database) (utcnow : nat -> Z)
    (barber_id date d : Z) (slot : Z) (apt : Appointment) (j k : Z) :
  In slot (get_available_slots db utcnow barber_id date d) ->
  In apt (get_barber_appointments db barber_id date) ->
  0 <= j -> j * timedelta_minutes 30 < timedelta_minutes d ->
  0 <= k ->
  k * timedelta_minutes 30 < timedelta_minutes (apt_duration db apt) ->
  slot + j * timedelta_minutes 30
  <> replace_second0 (scheduled_at apt + k * timedelta_minutes 30).
Proof.
  intros Hin Hapt Hj Hjd Hk Hkd Heq.
  destruct (get_by_id db barber_id) as [barber |] eqn:Hb.
  - destruct (get_available_slots_inv db utcnow barber_id date d barber Hb)
      as (_ & Hall & _).
    rewrite List.Forall_forall in Hall.
    destruct (Hall slot Hin) as (_ & _ & Hfree & _).
    rewrite slot_is_available_spec in Hfree.
    apply (Hfree j Hj Hjd). apply blocked_times_of_spec.
    exists apt. split; [exact Hapt |]. exists k. split; [exact Hk |].
    split; [lia | exact Heq].
  - unfold get_available_slots in Hin.
    rewrite slot_search_without_barber in Hin by exact Hb. destruct Hin.
Qed.

Lemma returned_slot_avoids_bookings_witness :
  Sample.at_ 9 30 0 + 0 * timedelta_minutes 30
  <> replace_second0
       (scheduled_at (Sample.booking (Sample.at_ 9 0 0))
        + 0 * timedelta_minutes 30).
Proof.
  apply (returned_slot_avoids_bookings
           (Sample.shop true 30 [Sample.booking (Sample.at_ 9 0 0)])
           (Sample.frozen (Sample.at_ 8 0 0)) 1 (Sample.at_ 0 0 0) 30
           (Sample.at_ 9 30 0) (Sample.booking (Sample.at_ 9 0 0)) 0 0).
  - vm_compute. tauto.
  - vm_compute. tauto.
  - lia.
  - reflexivity.
  - lia.
  - reflexivity.
Defined.

Lemma slot_is_available_nonpos (b : gset Z) (t d : Z) :
  d <= 0 -> slot_is_available b t d = true.
Proof.
  intros Hd. apply slot_is_available_spec. intros k Hk Hlt.
  pose proof step_pos.
  assert (timedelta_minutes d <= 0)
    by (unfold timedelta_minutes, US_PER_MINUTE, US_PER_SECOND; lia).
  nia.
Qed.

Lemma slot_loop_nonpos (n : nat) utcnow (b b' : gset Z) (d e t : Z)
    (acc : list Z) (reads : nat) :
  d <= 0 ->
  slot_loop n utcnow b d e t acc reads = slot_loop n utcnow b' d e t acc reads.
Proof.
  intros Hd. revert t acc reads.
  induction n as [| n IH]; intros t acc reads; simpl; [reflexivity |].
  rewrite !slot_is_available_nonpos by exact Hd.
  destruct (t + timedelta_minutes d <=? e); [| reflexivity].
  destruct (t >? utcnow reads); apply IH.
Qed.

(** For a requested duration of zero or less the bookings are not
    looked at: the method returns what it returns for the same barbers
    with no booking stored at all. *)
Theorem non_positive_duration_ignores_bookings (db : Database)
    (utcnow : nat -> Z) (barber_id date d : Z) :
  d <= 0 ->
  get_available_slots_reads db utcnow barber_id date d
  = get_available_slots_reads (without_appointments db) utcnow barber_id date d.
Proof.
  intros Hd. unfold get_available_slots_reads, get_by_id. simpl.
  destruct (barbers db !! barber_id); [| reflexivity].
  apply slot_loop_nonpos. exact Hd.
Qed.

Lemma non_positive_duration_ignores_bookings_witness :
  get_available_slots_reads
    (Sample.shop true 30 [Sample.booking (Sample.at_ 9 0 0)])
    (Sample.frozen (Sample.at_ 8 0 0)) 1 (Sample.at_ 0 0 0) 0
  = get_available_slots_reads
      (without_appointments
         (Sample.shop true 30 [Sample.booking (Sample.at_ 9 0 0)]))
      (Sample.frozen (Sample.at_ 8 0 0)) 1 (Sample.at_ 0 0 0) 0.
Proof. apply non_positive_duration_ignores_bookings. lia. Defined.

(** ** Offered slots against the availability check *)

Lemma replace_second0_shift (t k : Z) :
  replace_second0 t = t ->
  replace_second0 (t + k * timedelta_minutes 30) = t + k * timedelta_minutes 30.
Proof.
  unfold replace_second0. intros Ht.
  replace (t + k * timedelta_minutes 30)
    with ((t / US_PER_MINUTE + k * 30) * US_PER_MINUTE)
    by (unfold timedelta_minutes; lia).
  rewrite Z.div_mul by discriminate. reflexivity.
Qed.

Lemma working_day_inside_day (barber : Barber) (date : Z) :
  valid_time (work_start barber) -> valid_time (work_end barber) ->
  replace_midnight date <= start_of_day barber date
  /\ end_of_day barber date < replace_midnight date + timedelta_days 1.
Proof.
  unfold valid_time, start_of_day, end_of_day, replace_hour_minute,
    timedelta_days.
  change US_PER_DAY with 86400000000. change US_PER_HOUR with 3600000000.
  change US_PER_MINUTE with 60000000. lia.
Qed.

(** A slot the search returns passes the availability check for the
    same duration, provided the duration is positive, the barber's
    working times are times of the day, and every active booking of the
    barber starts on the 30-minute grid of the working start and is for
    a service of positive duration. *)
Theorem offered_slot_is_bookable (db : Database) (utcnow : nat -> Z)
    (key date d : Z) (barber : Barber) (slot : Z) :
  get_by_id db key = Some barber ->
  valid_time (work_start barber) -> valid_time (work_end barber) ->
  0 < d ->
  (forall apt, In apt (appointments db) ->
     barber_id apt = key ->
     status_active (status apt) = true ->
     (exists j : Z,
         scheduled_at apt = start_of_day barber date + j * timedelta_minutes 30)
     /\ 0 < apt_duration db apt) ->
  In slot (get_available_slots db utcnow key date d) ->
  check_availability db key slot d = Ok true.
Proof.
  intros Hb Hws Hwe Hd Hgrid Hin.
  destruct (get_available_slots_inv db utcnow key date d barber Hb)
    as (_ & Hall & _).
  rewrite List.Forall_forall in Hall.
  destruct (Hall slot Hin) as ((k & Hk & Hslot) & Hfit & Hfree & _).
  rewrite slot_is_available_spec in Hfree.
  destruct (working_day_inside_day barber date Hws Hwe) as (Hlo & Hhi).
  pose proof step_pos as Hstep.
  assert (Htd : 0 < timedelta_minutes d)
    by (unfold timedelta_minutes, US_PER_MINUTE, US_PER_SECOND; lia).
  apply check_availability_true. intros apt Hapt.
  destruct (availability_clash key slot (slot + timedelta_minutes d) apt)
    eqn:Hclash; [exfalso | reflexivity].
  rewrite availability_clash_half_open in Hclash by exact Hd.
  apply andb_true_iff in Hclash. destruct Hclash as (Hown & Hspan).
  apply andb_true_iff in Hown. destruct Hown as (Hbarber & Hactive).
  apply andb_true_iff in Hspan. destruct Hspan as (Hlt & Hgt).
  apply Z.eqb_eq in Hbarber. apply Z.ltb_lt in Hlt.
  apply Z.gtb_lt in Hgt.
  destruct (Hgrid apt Hapt Hbarber Hactive) as ((j & Hj) & Hdur).
  assert (Hjk : k <= j) by nia.
  apply (Hfree (j - k)); [lia | nia |].
  replace (slot + (j - k) * timedelta_minutes 30) with (scheduled_at apt) by lia.
  apply blocked_times_of_spec. exists apt. split.
  - apply in_get_barber_appointments. repeat split; try assumption; nia.
  - exists 0. rewrite Z.mul_0_l, Z.add_0_r. split; [lia |]. split.
    + unfold timedelta_minutes, US_PER_MINUTE, US_PER_SECOND. lia.
    + rewrite Hj. symmetry. apply replace_second0_shift.
      apply replace_hour_minute_aligned.
Qed.

Lemma offered_slot_is_bookable_witness :
  check_availability
    (Sample.shop true 30 [Sample.booking (Sample.at_ 9 0 0)])
    1 (Sample.at_ 9 30 0) 30 = Ok true.
Proof.
  apply (offered_slot_is_bookable
           (Sample.shop true 30 [Sample.booking (Sample.at_ 9 0 0)])
           (Sample.frozen (Sample.at_ 8 0 0)) 1 (Sample.at_ 0 0 0) 30
           (Sample.barber_9_19 true) (Sample.at_ 9 30 0)).
  - reflexivity.
  - unfold valid_time; simpl; unfold US_PER_SECOND; lia.
  - unfold valid_time; simpl; unfold US_PER_SECOND; lia.
  - lia.
  - intros apt [<- | []] _ _. split; [exists 0; reflexivity | reflexivity].
  - vm_compute. tauto.
Defined.

(** ** Customers *)

Lemma filter_map_same {A : Type} (f : A -> bool) (g : A -> A) (l : list A) :
  (forall x, f (g x) = f x) ->
  List.filter f (map g l) = map g (List.filter f l).
Proof.
  intros H. induction l as [| a l IH]; simpl; [reflexivity |].
  rewrite H. destruct (f a); simpl; rewrite IH; reflexivity.
Qed.

Lemma filter_phone_update_row (phone : string) (i : Z) (n : option string)
    (rows : list Customer.t) :
  List.filter (fun c => String.eqb (Customer.phone c) phone)
    (CustomerService.update_row i n rows)
  = CustomerService.update_row i n
      (List.filter (fun c => String.eqb (Customer.phone c) phone) rows).
Proof.
  unfold CustomerService.update_row. apply filter_map_same.
  intros c. destruct (Customer.id c =? i); reflexivity.
Qed.

Lemma customer_next_id_above (rows : list Customer.t) (c : Customer.t) :
  In c rows -> Customer.id c < CustomerService.next_id rows.
Proof.
  unfold CustomerService.next_id.
  induction rows as [| a rows IH]; intros Hin; [destruct Hin |].
  simpl. destruct Hin as [-> | Hin]; [lia |]. specialize (IH Hin). lia.
Qed.

(** After [get_or_create], looking the phone up finds the customer the
    call returned. *)
Lemma get_or_create_lookup (s s' : Session) (phone : string)
    (name : option string) (c : Customer.t) :
  CustomerService.get_or_create s phone name = Ok (s', c) ->
  CustomerService.get_by_phone s' phone = Ok (Some c).
Proof.
  unfold CustomerService.get_or_create.
  destruct (CustomerService.get_by_phone s phone) as [[c0 |] | e] eqn:Hget;
    [| | discriminate].
  - destruct (truthy name && negb (truthy (Customer.name c0))).
    + intros H. injection H as <- <-.
      unfold CustomerService.get_by_phone in *. simpl.
      apply scalar_one_or_none_some in Hget.
      rewrite filter_phone_update_row, Hget. simpl.
      rewrite Z.eqb_refl. reflexivity.
    + intros H. injection H as <- <-. exact Hget.
  - intros H. injection H as <- <-.
    unfold CustomerService.get_by_phone in *. simpl.
    apply scalar_one_or_none_none in Hget.
    rewrite List.filter_app, Hget. simpl.
    rewrite String.eqb_refl. reflexivity.
Qed.

(** Round trip: the customer [get_or_create] returns has the phone
    number asked for and is the one [get_by_phone] finds afterwards. *)
Theorem get_or_create_then_get_by_phone (s s' : Session) (phone : string)
    (name : option string) (c : Customer.t) :
  CustomerService.get_or_create s phone name = Ok (s', c) ->
  Customer.phone c = phone
  /\ CustomerService.get_by_phone s' phone = Ok (Some c).
Proof.
  intros H. pose proof (get_or_create_lookup s s' phone name c H) as Hget.
  split; [| exact Hget].
  apply scalar_one_or_none_some in Hget.
  assert (Hin : In c (List.filter
            (fun c => String.eqb (Customer.phone c) phone) (customers s')))
    by (rewrite Hget; left; reflexivity).
  apply filter_In in Hin. destruct Hin as (_ & Heq).
  apply String.eqb_eq. exact Heq.
Qed.

Lemma get_or_create_then_get_by_phone_witness :
  let s := {| database := Sample.shop true 30 [];
              customers := []; conversations := [] |} in
  let c := {| Customer.id := 1; Customer.phone := "5511999990000";
              Customer.name := Some "Rui" |} in
  Customer.phone c = "5511999990000"
  /\ CustomerService.get_by_phone
       {| database := database s; customers := customers s ++ [c];
          conversations := conversations s |} "5511999990000"
     = Ok (Some c).
Proof.
  apply (get_or_create_then_get_by_phone
           {| database := Sample.shop true 30 [];
              customers := []; conversations := [] |}
           _ "5511999990000" (Some "Rui")).
  reflexivity.
Defined.

(** [get_or_create] is idempotent: a second call with the same
    arguments returns the same customer and changes nothing more. *)
Theorem get_or_create_idempotent (s s' : Session) (phone : string)
    (name : option string) (c : Customer.t) :
  CustomerService.get_or_create s phone name = Ok (s', c) ->
  CustomerService.get_or_create s' phone name = Ok (s', c).
Proof.
  intros H. pose proof (get_or_create_lookup s s' phone name c H) as Hget.
  assert (Hcond : truthy name && negb (truthy (Customer.name c)) = false).
  { revert H. unfold CustomerService.get_or_create.
    destruct (CustomerService.get_by_phone s phone) as [[c0 |] | e];
      [| | discriminate].
    - destruct (truthy name && negb (truthy (Customer.name c0))) eqn:Hc.
      + intros H. injection H as _ <-. simpl. apply andb_negb_r.
      + intros H. injection H as _ <-. exact Hc.
    - intros H. injection H as _ <-. simpl. apply andb_negb_r. }
  unfold CustomerService.get_or_create. rewrite Hget, Hcond. reflexivity.
Qed.

Lemma get_or_create_idempotent_witness :
  let s' := {| database := Sample.shop true 30 [];
               customers := [] ++ [ {| Customer.id := 1;
                                Customer.phone := "5511999990000";
                                Customer.name := None |} ];
               conversations := [] |} in
  CustomerService.get_or_create s' "5511999990000" None
  = Ok (s', {| Customer.id := 1; Customer.phone := "5511999990000";
               Customer.name := None |}).
Proof.
  apply (get_or_create_idempotent
           {| database := Sample.shop true 30 [];
              customers := []; conversations := [] |}).
  reflexivity.
Defined.

(** On a phone number that is stored, [get_or_create] adds no row; it
    keeps a name that is set, and fills in the given name only when the
    stored one is unset (missing or empty) and the given one is not. *)
Theorem get_or_create_known_phone (s : Session) (phone : string)
    (name : option string) (c0 : Customer.t) :
  CustomerService.get_by_phone s phone = Ok (Some c0) ->
  exists (s' : Session) (c : Customer.t),
    CustomerService.get_or_create s phone name = Ok (s', c)
    /\ length (customers s') = length (customers s)
    /\ Customer.id c = Customer.id c0
    /\ (truthy (Customer.name c0) = true -> s' = s /\ c = c0)
    /\ (truthy name = false -> s' = s /\ c = c0)
    /\ (truthy (Customer.name c0) = false -> truthy name = true ->
        Customer.name c = name).
Proof.
  intros Hget. unfold CustomerService.get_or_create. rewrite Hget.
  destruct (truthy name) eqn:Hn, (truthy (Customer.name c0)) eqn:Hc0; simpl;
    eexists; eexists; (split; [reflexivity |]); simpl;
    unfold CustomerService.update_row; rewrite ?length_map;
    repeat split; auto; discriminate.
Qed.

Lemma get_or_create_known_phone_witness :
  let c0 := {| Customer.id := 1; Customer.phone := "5511999990000";
               Customer.name := Some "Rui" |} in
  let s := {| database := Sample.shop true 30 [];
              customers := [c0]; conversations := [] |} in
  exists (s' : Session) (c : Customer.t),
    CustomerService.get_or_create s "5511999990000" (Some "Raul") = Ok (s', c)
    /\ length (customers s') = length (customers s)
    /\ Customer.id c = Customer.id c0
    /\ (truthy (Customer.name c0) = true -> s' = s /\ c = c0)
    /\ (truthy (Some "Raul") = false -> s' = s /\ c = c0)
    /\ (truthy (Customer.name c0) = false -> truthy (Some "Raul") = true ->
        Customer.name c = Some "Raul").
Proof.
  apply (get_or_create_known_phone
           {| database := Sample.shop true 30 [];
              customers := [ {| Customer.id := 1;
                                Customer.phone := "5511999990000";
                                Customer.name := Some "Rui" |} ];
              conversations := [] |}
           "5511999990000" (Some "Raul")).
  reflexivity.
Defined.

Lemma unique_phone_rows (rows : list Customer.t) (phone : string) :
  NoDup (map Customer.phone rows) ->
  (length (List.filter (fun c => String.eqb (Customer.phone c) phone) rows)
   <= 1)%nat.
Proof.
  induction rows as [| a rows IH]; simpl; intros Hnd; [lia |].
  inversion Hnd as [| p ps Hnotin Hrest]; subst.
  destruct (String.eqb_spec (Customer.phone a) phone) as [Heq | _];
    [| apply IH; exact Hrest].
  rewrite filter_none; [simpl; lia |].
  intros c Hc. apply String.eqb_neq. intros Hcp. apply Hnotin.
  rewrite Heq, <- Hcp. apply list_elem_of_In, in_map. exact Hc.
Qed.

Lemma update_row_phones (i : Z) (n : option string) (rows : list Customer.t) :
  map Customer.phone (CustomerService.update_row i n rows)
  = map Customer.phone rows.
Proof.
  unfold CustomerService.update_row. rewrite map_map. apply map_ext.
  intros c. destruct (Customer.id c =? i); reflexivity.
Qed.

Lemma update_row_ids (i : Z) (n : option string) (rows : list Customer.t) :
  map Customer.id (CustomerService.update_row i n rows) = map Customer.id rows.
Proof.
  unfold CustomerService.update_row. rewrite map_map. apply map_ext.
  intros c. destruct (Customer.id c =? i); reflexivity.
Qed.

(** When phone numbers and ids are unique among the stored customers,
    [get_or_create] does not raise, and both are unique afterwards; the
    other tables are not touched. *)
Theorem get_or_create_keeps_keys_unique (s : Session) (phone : string)
    (name : option string) :
  NoDup (map Customer.phone (customers s)) ->
  NoDup (map Customer.id (customers s)) ->
  exists (s' : Session) (c : Customer.t),
    CustomerService.get_or_create s phone name = Ok (s', c)
    /\ NoDup (map Customer.phone (customers s'))
    /\ NoDup (map Customer.id (customers s'))
    /\ database s' = database s /\ conversations s' = conversations s.
Proof.
  intros Hphones Hids.
  pose proof (unique_phone_rows (customers s) phone Hphones) as Hone.
  unfold CustomerService.get_or_create, CustomerService.get_by_phone.
  destruct (List.filter _ (customers s)) as [| c0 [| c1 rest]] eqn:Hrows;
    simpl in Hone; [| | lia]; simpl.
  - eexists; eexists. split; [reflexivity |]. simpl.
    rewrite !map_app. simpl. repeat split.
    + apply NoDup_app. repeat split; [exact Hphones | | apply NoDup_singleton].
      intros p Hp Hq. apply list_elem_of_In in Hp.
      apply list_elem_of_In in Hq. destruct Hq as [<- | []].
      apply in_map_iff in Hp. destruct Hp as (c & Hcp & Hc).
      assert (Hin : In c (List.filter
                (fun c => String.eqb (Customer.phone c) phone) (customers s)))
        by (apply filter_In; split; [exact Hc | apply String.eqb_eq, Hcp]).
      rewrite Hrows in Hin. destruct Hin.
    + apply NoDup_app. repeat split; [exact Hids | | apply NoDup_singleton].
      intros i Hi Hq. apply list_elem_of_In in Hi.
      apply list_elem_of_In in Hq. destruct Hq as [<- | []].
      apply in_map_iff in Hi. destruct Hi as (c & Hci & Hc).
      apply customer_next_id_above in Hc. lia.
  - destruct (truthy name && negb (truthy (Customer.name c0)));
      eexists; eexists; (split; [reflexivity |]); simpl;
      rewrite ?update_row_phones, ?update_row_ids; auto.
Qed.

Lemma get_or_create_keeps_keys_unique_witness :
  let s := {| database := Sample.shop true 30 [];
              customers := [ {| Customer.id := 1;
                                Customer.phone := "5511999990000";
                                Customer.name := None |} ];
              conversations := [] |} in
  exists (s' : Session) (c : Customer.t),
    CustomerService.get_or_create s "5511888880000" (Some "Lia") = Ok (s', c)
    /\ NoDup (map Customer.phone (customers s'))
    /\ NoDup (map Customer.id (customers s'))
    /\ database s' = database s /\ conversations s' = conversations s.
Proof.
  apply (get_or_create_keeps_keys_unique
           {| database := Sample.shop true 30 [];
              customers := [ {| Customer.id := 1;
                                Customer.phone := "5511999990000";
                                Customer.name := None |} ];
              conversations := [] |}
           "5511888880000" (Some "Lia"));
    simpl; apply NoDup_singleton.
Defined.

(** [update_name] on a stored phone number sets the name, whether or
    not one was set before, and the customer found afterwards carries
    it. *)
Theorem update_name_sets_name (s : Session) (phone name : string)
    (c0 : Customer.t) :
  CustomerService.get_by_phone s phone = Ok (Some c0) ->
  exists (s' : Session) (c : Customer.t),
    CustomerService.update_name s phone name = Ok (s', Some c)
    /\ Customer.name c = Some name
    /\ Customer.id c = Customer.id c0 /\ Customer.phone c = Customer.phone c0
    /\ CustomerService.get_by_phone s' phone = Ok (Some c).
Proof.
  intros Hget. unfold CustomerService.update_name. rewrite Hget.
  eexists; eexists. split; [reflexivity |]. repeat split.
  unfold CustomerService.get_by_phone in *. simpl.
  apply scalar_one_or_none_some in Hget.
  rewrite filter_phone_update_row, Hget. simpl.
  rewrite Z.eqb_refl. reflexivity.
Qed.

Lemma update_name_sets_name_witness :
  let c0 := {| Customer.id := 1; Customer.phone := "5511999990000";
               Customer.name := Some "Rui" |} in
  let s := {| database := Sample.shop true 30 [];
              customers := [c0]; conversations := [] |} in
  exists (s' : Session) (c : Customer.t),
    CustomerService.update_name s "5511999990000" "Raul" = Ok (s', Some c)
    /\ Customer.name c = Some "Raul"
    /\ Customer.id c = Customer.id c0 /\ Customer.phone c = Customer.phone c0
    /\ CustomerService.get_by_phone s' "5511999990000" = Ok (Some c).
Proof.
  apply (update_name_sets_name
           {| database := Sample.shop true 30 [];
              customers := [ {| Customer.id := 1;
                                Customer.phone := "5511999990000";
                                Customer.name := Some "Rui" |} ];
              conversations := [] |}
           "5511999990000" "Raul").
  reflexivity.
Defined.

(** ** Ordered queries *)

Lemma scheduled_le_order : Transitive scheduled_le /\ Total scheduled_le.
Proof.
  split.
  - intros a b c. unfold scheduled_le. lia.
  - intros a b. unfold scheduled_le. lia.
Qed.

Lemma scheduled_ge_order : Transitive scheduled_ge /\ Total scheduled_ge.
Proof.
  split.
  - intros a b c. unfold scheduled_ge. lia.
  - intros a b. unfold scheduled_ge. lia.
Qed.

Lemma created_ge_order : Transitive created_ge /\ Total created_ge.
Proof.
  split.
  - intros a b c. unfold created_ge. lia.
  - intros a b. unfold created_ge. lia.
Qed.

Lemma permutation_filter {A : Type} (f : A -> bool) (l l' : list A) :
  Permutation l l' -> Permutation (List.filter f l) (List.filter f l').
Proof.
  induction 1 as [| x l l' _ IH | x y l | l l' l'' _ IH1 _ IH2]; simpl.
  - constructor.
  - destruct (f x); [constructor |]; exact IH.
  - destruct (f x), (f y); try reflexivity. constructor.
  - etransitivity; eassumption.
Qed.

Lemma strongly_sorted_filter {A : Type} (R : A -> A -> Prop) (f : A -> bool)
    (l : list A) :
  StronglySorted R l -> StronglySorted R (List.filter f l).
Proof.
  induction 1 as [| a l Hl IH Ha]; simpl; [constructor |].
  destruct (f a); [| exact IH]. constructor; [exact IH |].
  rewrite List.Forall_forall in *. intros x Hx. apply filter_In in Hx.
  apply Ha. tauto.
Qed.

Lemma filter_twice {A : Type} (f g : A -> bool) (l : list A) :
  List.filter f (List.filter g l) = List.filter (fun x => g x && f x) l.
Proof.
  induction l as [| a l IH]; simpl; [reflexivity |].
  destruct (g a); simpl; [destruct (f a) |]; rewrite IH; reflexivity.
Qed.

Lemma strongly_sorted_rev {A : Type} (R : A -> A -> Prop) (l : list A) :
  StronglySorted R l -> StronglySorted (fun a b => R b a) (rev l).
Proof.
  induction 1 as [| a l Hl IH Ha]; simpl; [constructor |].
  apply StronglySorted_app_2; [| exact IH | repeat constructor].
  intros x1 x2 Hx1 Hx2. apply list_elem_of_In in Hx1, Hx2.
  destruct Hx2 as [<- | []]. apply in_rev in Hx1.
  rewrite List.Forall_forall in Ha. apply Ha. exact Hx1.
Qed.

(** [get_barber_appointments] returns the stored bookings that are of
    the barber, active and start on the day of the date given, each as
    often as it is stored and no other row, ordered by start, earliest
    first. *)
Theorem get_barber_appointments_ordered (db : Database) (barber date : Z) :
  StronglySorted scheduled_le (get_barber_appointments db barber date)
  /\ Permutation (get_barber_appointments db barber date)
       (List.filter
          (fun apt =>
             (barber_id apt =? barber)
             && status_active (status apt)
             && (replace_midnight date <=? scheduled_at apt)
             && (scheduled_at apt <? replace_midnight date + timedelta_days 1))
          (appointments db))
  /\ forall apt,
       In apt (get_barber_appointments db barber date) <->
       In apt (appointments db) /\ barber_id apt = barber
       /\ status_active (status apt) = true
       /\ replace_midnight date <= scheduled_at apt
          < replace_midnight date + timedelta_days 1.
Proof.
  split; [| split; [| apply in_get_barber_appointments]].
  - destruct scheduled_le_order as (Htrans & Htotal).
    unfold get_barber_appointments, order_by_scheduled_at.
    apply StronglySorted_merge_sort; assumption.
  - unfold get_barber_appointments, order_by_scheduled_at.
    rewrite merge_sort_Permutation.
    erewrite filter_ext; [reflexivity |].
    intros apt. unfold on_day_active. rewrite Z.geb_leb.
    destruct (barber_id apt =? barber), (status_active (status apt)),
      (replace_midnight date <=? scheduled_at apt),
      (scheduled_at apt <? replace_midnight date + timedelta_days 1);
      reflexivity.
Qed.

(** For a stored phone number, [get_customer_appointments] returns the
    stored bookings of that customer, each as often as it is stored and
    no other row, latest start first; with [upcoming_only] only those
    that are active and do not start before the clock value. *)
Theorem get_customer_appointments_exact (s : Session) (now : Z)
    (phone : string) (upcoming_only : bool) (customer : Customer.t) :
  CustomerService.get_by_phone s phone = Ok (Some customer) ->
  exists rows : list Appointment,
    AppointmentService.get_customer_appointments s now phone upcoming_only
    = Ok rows
    /\ StronglySorted scheduled_ge rows
    /\ Permutation rows
         (List.filter
            (fun apt =>
               (customer_id apt =? Customer.id customer)
               && (if upcoming_only
                   then (now <=? scheduled_at apt)
                        && status_active (status apt)
                   else true))
            (appointments (database s)))
    /\ forall apt,
         In apt rows <->
         In apt (appointments (database s))
         /\ customer_id apt = Customer.id customer
         /\ (upcoming_only = true ->
             now <= scheduled_at apt /\ status_active (status apt) = true).
Proof.
  intros Hget. unfold AppointmentService.get_customer_appointments.
  rewrite Hget. eexists. split; [reflexivity |].
  destruct scheduled_ge_order as (Htrans & Htotal).
  split; [apply StronglySorted_merge_sort; assumption |]. split.
  - rewrite merge_sort_Permutation.
    destruct upcoming_only.
    + rewrite filter_twice. erewrite filter_ext; [reflexivity |].
      intros apt. simpl. rewrite Z.geb_leb. reflexivity.
    + erewrite filter_ext; [reflexivity |].
      intros apt. simpl. rewrite andb_true_r. reflexivity.
  - intros apt.
    rewrite <- list_elem_of_In, merge_sort_Permutation, list_elem_of_In.
    destruct upcoming_only;
      rewrite ?filter_In, ?andb_true_iff, ?Z.eqb_eq, ?Z.geb_le.
    + split.
      * intros ((H1 & H2) & H3 & H4). auto.
      * intros (H1 & H2 & H3). destruct H3 as (H3 & H4); [reflexivity | auto].
    + split.
      * intros (H1 & H2). repeat split; auto; discriminate.
      * intros (H1 & H2 & _). auto.
Qed.

Lemma get_customer_appointments_exact_witness :
  let c := {| Customer.id := 1; Customer.phone := "5511999990000";
              Customer.name := None |} in
  let s := {| database :=
                Sample.shop true 30
                  [Sample.booking (Sample.at_ 10 0 0); Cases.done];
              customers := [c]; conversations := [] |} in
  exists rows : list Appointment,
    AppointmentService.get_customer_appointments s (Sample.at_ 9 0 0)
      "5511999990000" true
    = Ok rows
    /\ StronglySorted scheduled_ge rows
    /\ Permutation rows
         (List.filter
            (fun apt =>
               (customer_id apt =? Customer.id c)
               && ((Sample.at_ 9 0 0 <=? scheduled_at apt)
                   && status_active (status apt)))
            (appointments (database s)))
    /\ forall apt,
         In apt rows <->
         In apt (appointments (database s))
         /\ customer_id apt = Customer.id c
         /\ (true = true ->
             Sample.at_ 9 0 0 <= scheduled_at apt
             /\ status_active (status apt) = true).
Proof.
  apply (get_customer_appointments_exact
           {| database :=
                Sample.shop true 30
                  [Sample.booking (Sample.at_ 10 0 0); Cases.done];
              customers := [ {| Customer.id := 1;
                                Customer.phone := "5511999990000";
                                Customer.name := None |} ];
              conversations := [] |}
           (Sample.at_ 9 0 0) "5511999990000" true).
  reflexivity.
Defined.

(** [get_recent_messages] returns the customer's most recent messages,
    at most [limit] of them and all of them when there are no more, in
    chronological order: every stored message of the customer that is
    left out is no later than every message returned. *)
Theorem get_recent_messages_latest (s : Session) (customer : Z) (limit : nat) :
  let stored :=
    List.filter (fun c => Conversation.customer_id c =? customer)
      (conversations s) in
  let rows := ConversationService.get_recent_messages s customer limit in
  length rows = Nat.min limit (length stored)
  /\ StronglySorted
       (fun a b => Conversation.created_at a <= Conversation.created_at b) rows
  /\ exists older : list Conversation.t,
       Permutation (rows ++ older) stored
       /\ forall m o, In m rows -> In o older ->
            Conversation.created_at o <= Conversation.created_at m.
Proof.
  intros stored rows. subst rows.
  unfold ConversationService.get_recent_messages. fold stored.
  destruct created_ge_order as (Htrans & Htotal).
  pose proof (StronglySorted_merge_sort created_ge stored) as Hsorted.
  pose proof (merge_sort_Permutation created_ge stored) as Hperm.
  set (sorted := merge_sort created_ge stored) in *.
  rewrite <- (firstn_skipn limit sorted) in Hsorted, Hperm.
  split; [| split].
  - rewrite length_rev, length_firstn. unfold sorted.
    rewrite (Permutation_length (merge_sort_Permutation created_ge stored)).
    reflexivity.
  - apply (strongly_sorted_rev created_ge).
    apply StronglySorted_app_1_l in Hsorted. exact Hsorted.
  - exists (skipn limit sorted). split.
    + rewrite <- Hperm. apply Permutation_app_tail.
      symmetry. apply Permutation_rev.
    + intros m o Hm Ho. apply in_rev in Hm.
      apply (StronglySorted_app_1_elem_of created_ge _ _ m o Hsorted);
        apply list_elem_of_In; assumption.
Qed.

(** ** The history of a customer *)

Lemma has_key_in (key : Z) (h : list (Z * BarberHistory.t)) :
  AppointmentService.has_key key h = true <-> exists bh, In (key, bh) h.
Proof.
  unfold AppointmentService.has_key. rewrite existsb_exists. split.
  - intros ([k bh] & Hin & Hk). simpl in Hk. apply Z.eqb_eq in Hk. subst.
    exists bh. exact Hin.
  - intros (bh & Hin). exists (key, bh). split; [exact Hin |].
    simpl. apply Z.eqb_refl.
Qed.

Lemma at_key_keys (key : Z) f (h : list (Z * BarberHistory.t)) :
  map fst (AppointmentService.at_key key f h) = map fst h.
Proof.
  unfold AppointmentService.at_key. rewrite map_map. apply map_ext.
  intros [k bh]. simpl. destruct (k =? key); reflexivity.
Qed.

Lemma has_key_keys (key : Z) (h h' : list (Z * BarberHistory.t)) :
  map fst h = map fst h' ->
  AppointmentService.has_key key h = AppointmentService.has_key key h'.
Proof.
  assert (Hmap : forall l : list (Z * BarberHistory.t),
            AppointmentService.has_key key l
            = existsb (fun k => k =? key) (map fst l)).
  { induction l as [| kv l IH]; simpl; [reflexivity |]. rewrite IH. reflexivity. }
  intros H. rewrite !Hmap, H. reflexivity.
Qed.

Lemma in_at_key (key : Z) f (h : list (Z * BarberHistory.t)) (k : Z)
    (bh : BarberHistory.t) :
  In (k, bh) (AppointmentService.at_key key f h) ->
  exists bh0, In (k, bh0) h /\ bh = if k =? key then f bh0 else bh0.
Proof.
  unfold AppointmentService.at_key. rewrite in_map_iff.
  intros ([k0 bh0] & Heq & Hin). simpl in Heq.
  destruct (Z.eqb_spec k0 key) as [Hk | Hk]; injection Heq as <- <-.
  - exists bh0. split; [exact Hin |]. subst. rewrite Z.eqb_refl. reflexivity.
  - exists bh0. split; [exact Hin |].
    destruct (Z.eqb_spec k0 key); [contradiction | reflexivity].
Qed.

Lemma entry_of_other (db : Database) (done : list Appointment)
    (apt : Appointment) (key : Z) (bh : BarberHistory.t) :
  barber_id apt <> key ->
  entry_of db done key bh -> entry_of db (done ++ [apt]) key bh.
Proof.
  intros Hne. unfold entry_of. rewrite List.filter_app. simpl.
  destruct (Z.eqb_spec (barber_id apt) key); [contradiction |].
  rewrite app_nil_r. auto.
Qed.

Lemma entry_of_visit (db : Database) (done : list Appointment)
    (apt : Appointment) (service : Service) (bh : BarberHistory.t) :
  apt_service db apt = Some service ->
  entry_of db done (barber_id apt) bh ->
  entry_of db (done ++ [apt]) (barber_id apt)
    (AppointmentService.add_service (service_name service)
       (AppointmentService.add_visit bh)).
Proof.
  intros Hsv (Hkey & Hcount & (first & rest & Hmine & Hlast) & Hbarber & Hused).
  unfold entry_of. rewrite List.filter_app. simpl. rewrite Z.eqb_refl.
  simpl. repeat split.
  - exact Hkey.
  - rewrite Hcount, length_app. simpl. lia.
  - exists first, (rest ++ [apt]). rewrite Hmine. split; [reflexivity | exact Hlast].
  - exact Hbarber.
  - rewrite elem_of_union, elem_of_singleton, Hused.
    intros [(a & sv & Hin & Ha & Hn) | ->].
    + exists a, sv. rewrite in_app_iff. auto.
    + exists apt, service. rewrite in_app_iff. simpl. auto.
  - rewrite elem_of_union, elem_of_singleton, Hused.
    intros (a & sv & Hin & Ha & Hn). apply in_app_iff in Hin.
    destruct Hin as [Hin | [<- | []]].
    + left. exists a, sv. auto.
    + right. congruence.
Qed.

Lemma entry_of_first_visit (db : Database) (done : list Appointment)
    (apt : Appointment) (barber : Barber) (service : Service) :
  (forall a, In a done -> barber_id a <> barber_id apt) ->
  barbers db !! barber_id apt = Some barber ->
  apt_service db apt = Some service ->
  entry_of db (done ++ [apt]) (barber_id apt)
    (AppointmentService.add_service (service_name service)
       (AppointmentService.add_visit
          {| BarberHistory.barber_id := barber_id apt;
             BarberHistory.barber_name := barber_name barber;
             BarberHistory.total_visits := 0;
             BarberHistory.last_visit := scheduled_at apt;
             BarberHistory.services_used := ∅ |})).
Proof.
  intros Hnew Hb Hsv. unfold entry_of. rewrite List.filter_app.
  rewrite (filter_none _ done)
    by (intros a Ha; apply Z.eqb_neq, Hnew, Ha).
  simpl. rewrite Z.eqb_refl. simpl. repeat split.
  - exists apt, []. split; reflexivity.
  - exists barber. split; [exact Hb | reflexivity].
  - rewrite elem_of_union, elem_of_singleton.
    intros [Hempty | ->]; [exfalso; revert Hempty; apply not_elem_of_empty |].
    exists apt, service. auto.
  - intros (a & sv & [<- | []] & Ha & Hn).
    rewrite elem_of_union, elem_of_singleton. right. congruence.
Qed.

Lemma history_step_inv (db : Database) (done : list Appointment)
    (h h' : list (Z * BarberHistory.t)) (apt : Appointment) :
  AppointmentService.history_step db h apt = Returns h' ->
  history_inv db done h -> history_inv db (done ++ [apt]) h'.
Proof.
  unfold AppointmentService.history_step.
  intros Hstep (Hentries & Hkeys & Hnodup).
  destruct (apt_service db apt) as [service |] eqn:Hsv.
  2:{ destruct (AppointmentService.has_key (barber_id apt) h);
        [discriminate |].
      destruct (barbers db !! barber_id apt); discriminate. }
  destruct (AppointmentService.has_key (barber_id apt) h) eqn:Hhas.
  - injection Hstep as <-. split; [| split].
    + intros key bh Hin.
      apply in_at_key in Hin. destruct Hin as (bh1 & Hin & ->).
      apply in_at_key in Hin. destruct Hin as (bh0 & Hin & ->).
      destruct (Z.eqb_spec key (barber_id apt)) as [-> | Hne].
      * apply entry_of_visit; [exact Hsv | apply Hentries; exact Hin].
      * apply entry_of_other; [congruence | apply Hentries; exact Hin].
    + intros a H.
      rewrite (has_key_keys _ _ h) by (rewrite !at_key_keys; reflexivity).
      apply in_app_iff in H. destruct H as [Ha | [<- | []]].
      * apply Hkeys. exact Ha.
      * split; [exact Hhas | rewrite Hsv; eexists; reflexivity].
    + rewrite !at_key_keys. exact Hnodup.
  - destruct (barbers db !! barber_id apt) as [barber |] eqn:Hb;
      [| discriminate].
    injection Hstep as <-.
    assert (Hnew : forall a, In a done -> barber_id a <> barber_id apt).
    { intros a Ha Heq. destruct (Hkeys a Ha) as (Hk & _). congruence. }
    assert (Hfresh : forall bh, ~ In (barber_id apt, bh) h).
    { intros bh Hin.
      assert (AppointmentService.has_key (barber_id apt) h = true)
        by (apply has_key_in; exists bh; exact Hin).
      congruence. }
    split; [| split].
    + intros key bh Hin.
      apply in_at_key in Hin. destruct Hin as (bh1 & Hin & ->).
      apply in_at_key in Hin. destruct Hin as (bh0 & Hin & ->).
      apply in_app_iff in Hin.
      destruct (Z.eqb_spec key (barber_id apt)) as [-> | Hne].
      * destruct Hin as [Hin | [Heq | []]]; [destruct (Hfresh _ Hin) |].
        injection Heq as <-.
        apply entry_of_first_visit; assumption.
      * destruct Hin as [Hin | [Heq | []]]; [| congruence].
        apply entry_of_other; [congruence | apply Hentries; exact Hin].
    + intros a H.
      rewrite (has_key_keys _ _ (h ++ [(barber_id apt,
            {| BarberHistory.barber_id := barber_id apt;
               BarberHistory.barber_name := barber_name barber;
               BarberHistory.total_visits := 0;
               BarberHistory.last_visit := scheduled_at apt;
               BarberHistory.services_used := ∅ |})]))
        by (rewrite !at_key_keys; reflexivity).
      unfold AppointmentService.has_key. rewrite existsb_app. simpl.
      apply in_app_iff in H. destruct H as [Ha | [<- | []]].
      * destruct (Hkeys a Ha) as (Hk & Hs). split; [| exact Hs].
        unfold AppointmentService.has_key in Hk. rewrite Hk. reflexivity.
      * rewrite Z.eqb_refl, orb_true_r.
        split; [reflexivity | rewrite Hsv; eexists; reflexivity].
    + rewrite !at_key_keys, map_app. simpl.
      apply NoDup_app. repeat split; [exact Hnodup | | apply NoDup_singleton].
      intros k Hk Hk'. apply list_elem_of_In in Hk, Hk'.
      destruct Hk' as [<- | []].
      apply in_map_iff in Hk. destruct Hk as ([k bh] & Hkk & Hin).
      simpl in Hkk. subst k. apply (Hfresh bh). exact Hin.
Qed.

Lemma history_loop_inv (db : Database) (rows done : list Appointment)
    (h h' : list (Z * BarberHistory.t)) :
  AppointmentService.history_loop db rows h = Returns h' ->
  history_inv db done h -> history_inv db (done ++ rows) h'.
Proof.
  revert done h. induction rows as [| apt rows IH]; intros done h; simpl.
  - intros H. injection H as <-. rewrite app_nil_r. auto.
  - destruct (AppointmentService.history_step db h apt) as [h1 | e] eqn:Hstep;
      [| discriminate].
    intros Hloop Hinv.
    replace (done ++ apt :: rows) with ((done ++ [apt]) ++ rows)
      by (rewrite <- app_assoc; reflexivity).
    apply (IH _ h1 Hloop). apply (history_step_inv db done h h1 apt Hstep Hinv).
Qed.

Lemma history_loop_error (db : Database) (rows : list Appointment)
    (h : list (Z * BarberHistory.t)) (e : error) :
  AppointmentService.history_loop db rows h = Raises e -> e = AttributeError.
Proof.
  revert h. induction rows as [| apt rows IH]; intros h; simpl; [discriminate |].
  destruct (AppointmentService.history_step db h apt) as [h1 | e1] eqn:Hstep.
  - apply IH.
  - intros H. injection H as <-. revert Hstep.
    unfold AppointmentService.history_step.
    destruct (AppointmentService.has_key (barber_id apt) h);
      [| destruct (barbers db !! barber_id apt)];
      destruct (apt_service db apt); congruence.
Qed.

Lemma history_loop_returns (db : Database) (rows : list Appointment)
    (h : list (Z * BarberHistory.t)) :
  (forall a, In a rows ->
     is_Some (barbers db !! barber_id a) /\ is_Some (apt_service db a)) ->
  exists h', AppointmentService.history_loop db rows h = Returns h'.
Proof.
  revert h. induction rows as [| apt rows IH]; intros h Hrows; simpl.
  - eexists. reflexivity.
  - destruct (Hrows apt (or_introl eq_refl)) as ([barber Hb] & [service Hsv]).
    unfold AppointmentService.history_step. rewrite Hb, Hsv.
    destruct (AppointmentService.has_key (barber_id apt) h);
      apply IH; intros a Ha; apply Hrows; right; exact Ha.
Qed.

(** The customer's appointments as the history loop takes them, and the
    invariant at the end of the loop. *)
Lemma customer_history_rows (s : Session) (customer : Customer.t)
    (h : list (Z * BarberHistory.t)) :
  let rows :=
    merge_sort scheduled_ge
      (List.filter (fun apt => customer_id apt =? Customer.id customer)
         (appointments (database s))) in
  AppointmentService.history_loop (database s) rows [] = Returns h ->
  history_inv (database s) rows h.
Proof.
  intros rows Hloop.
  apply (history_loop_inv (database s) rows [] [] h Hloop).
  split; [| split].
  - intros key bh [].
  - intros a [].
  - constructor.
Qed.

(** What [get_customer_history_with_barbers] returns for a stored phone
    number: one entry for each barber the customer has an appointment
    with, of whatever status, and for no other; the entry counts those
    appointments, gives the latest of their starts, the barber's name
    and the names of their services. *)
Theorem customer_history_exact (s : Session) (phone : string)
    (customer : Customer.t) (hist : list BarberHistory.t) :
  CustomerService.get_by_phone s phone = Ok (Some customer) ->
  AppointmentService.get_customer_history_with_barbers s phone = Returns hist ->
  NoDup (map BarberHistory.barber_id hist)
  /\ (forall a, In a (appointments (database s)) ->
        customer_id a = Customer.id customer ->
        exists bh, In bh hist /\ BarberHistory.barber_id bh = barber_id a)
  /\ forall bh, In bh hist ->
       let visits :=
         List.filter
           (fun a => (customer_id a =? Customer.id customer)
                     && (barber_id a =? BarberHistory.barber_id bh))
           (appointments (database s)) in
       BarberHistory.total_visits bh = Z.of_nat (length visits)
       /\ (exists a, In a visits
             /\ BarberHistory.last_visit bh = scheduled_at a)
       /\ (forall a, In a visits -> scheduled_at a <= BarberHistory.last_visit bh)
       /\ (exists barber,
             barbers (database s) !! BarberHistory.barber_id bh = Some barber
             /\ BarberHistory.barber_name bh = barber_name barber)
       /\ (forall name : string,
             name ∈ BarberHistory.services_used bh <->
             exists a service,
               In a visits
               /\ services (database s) !! service_id a = Some service
               /\ service_name service = name).
Proof.
  intros Hget. unfold AppointmentService.get_customer_history_with_barbers.
  rewrite Hget.
  set (mine := List.filter (fun apt => customer_id apt =? Customer.id customer)
                 (appointments (database s))).
  destruct (AppointmentService.history_loop (database s)
              (merge_sort scheduled_ge mine) []) as [h | e] eqn:Hloop;
    [| discriminate].
  intros Hret. injection Hret as <-.
  destruct (customer_history_rows s customer h Hloop)
    as (Hentries & Hkeys & Hnodup).
  fold mine in Hentries, Hkeys.
  pose proof (merge_sort_Permutation scheduled_ge mine) as Hperm.
  destruct scheduled_ge_order as (Htrans & Htotal).
  pose proof (StronglySorted_merge_sort scheduled_ge mine) as Hsorted.
  set (rows := merge_sort scheduled_ge mine) in *.
  split; [| split].
  - replace (map BarberHistory.barber_id (map snd h)) with (map fst h);
      [exact Hnodup |].
    rewrite map_map. apply map_ext_in. intros [k bh] Hin. simpl.
    destruct (Hentries k bh Hin) as (Hk & _). congruence.
  - intros a Ha Hc.
    assert (Hrow : In a rows).
    { apply list_elem_of_In. rewrite Hperm. apply list_elem_of_In.
      apply filter_In. split; [exact Ha | apply Z.eqb_eq, Hc]. }
    destruct (Hkeys a Hrow) as (Hk & _). apply has_key_in in Hk.
    destruct Hk as (bh & Hin). exists bh. split.
    + apply in_map_iff. exists (barber_id a, bh). auto.
    + destruct (Hentries _ _ Hin) as (Hk & _). exact Hk.
  - intros bh Hbh. cbv zeta.
    set (visits := List.filter
           (fun a => (customer_id a =? Customer.id customer)
                     && (barber_id a =? BarberHistory.barber_id bh))
           (appointments (database s))).
    apply in_map_iff in Hbh.
    destruct Hbh as ([k bh'] & Heq & Hin). simpl in Heq. subst bh'.
    destruct (Hentries k bh Hin)
      as (Hk & Hcount & (first & rest & Hfirst & Hlast) & Hbarber & Hused).
    assert (Hvisits : Permutation
              (List.filter (fun a => barber_id a =? k) rows) visits).
    { subst visits. rewrite Hk. unfold mine. rewrite <- filter_twice.
      apply permutation_filter. exact Hperm. }
    assert (Hin_iff : forall a,
              In a (List.filter (fun a => barber_id a =? k) rows)
              <-> In a visits).
    { intros a. rewrite <- !list_elem_of_In, Hvisits. reflexivity. }
    pose proof (strongly_sorted_filter scheduled_ge
                  (fun a => barber_id a =? k) rows Hsorted) as Hmine.
    rewrite Hfirst in Hmine. apply StronglySorted_inv in Hmine.
    destruct Hmine as (_ & Hrest). rewrite List.Forall_forall in Hrest.
    split; [| split; [| split; [| split]]].
    + rewrite Hcount. f_equal. apply Permutation_length. exact Hvisits.
    + exists first. split; [| exact Hlast].
      apply Hin_iff. rewrite Hfirst. left. reflexivity.
    + intros a Ha. apply Hin_iff in Ha. rewrite Hfirst in Ha. rewrite Hlast.
      destruct Ha as [<- | Ha]; [lia | apply (Hrest a Ha)].
    + rewrite Hk. exact Hbarber.
    + intros name. rewrite Hused. unfold apt_service.
      split; intros (a & sv & Ha & Hsv & Hn); exists a, sv;
        (split; [apply Hin_iff; exact Ha | auto]).
Qed.

(** For a stored phone number the method returns exactly when every
    appointment of the customer points at a stored barber and a stored
    service; otherwise it raises [AttributeError]. *)
Theorem customer_history_needs_rows (s : Session) (phone : string)
    (customer : Customer.t) :
  CustomerService.get_by_phone s phone = Ok (Some customer) ->
  ((exists hist,
       AppointmentService.get_customer_history_with_barbers s phone
       = Returns hist)
   <-> forall a, In a (appointments (database s)) ->
         customer_id a = Customer.id customer ->
         is_Some (barbers (database s) !! barber_id a)
         /\ is_Some (services (database s) !! service_id a))
  /\ forall e,
       AppointmentService.get_customer_history_with_barbers s phone = Raises e ->
       e = AttributeError.
Proof.
  intros Hget. unfold AppointmentService.get_customer_history_with_barbers.
  rewrite Hget.
  set (mine := List.filter (fun apt => customer_id apt =? Customer.id customer)
                 (appointments (database s))).
  pose proof (merge_sort_Permutation scheduled_ge mine) as Hperm.
  assert (Hrows : forall a, In a (merge_sort scheduled_ge mine) <->
            In a (appointments (database s))
            /\ customer_id a = Customer.id customer).
  { intros a. rewrite <- list_elem_of_In, Hperm, list_elem_of_In.
    unfold mine. rewrite filter_In, Z.eqb_eq. reflexivity. }
  split; [split |].
  - intros (hist & Hret).
    destruct (AppointmentService.history_loop (database s)
                (merge_sort scheduled_ge mine) []) as [h | e] eqn:Hloop;
      [| discriminate].
    destruct (customer_history_rows s customer h Hloop)
      as (Hentries & Hkeys & _).
    intros a Ha Hc. destruct (Hkeys a (proj2 (Hrows a) (conj Ha Hc)))
      as (Hk & Hsv).
    split; [| exact Hsv].
    apply has_key_in in Hk. destruct Hk as (bh & Hin).
    destruct (Hentries _ _ Hin) as (_ & _ & _ & (barber & Hb & _) & _).
    rewrite Hb. eexists. reflexivity.
  - intros Hall.
    destruct (history_loop_returns (database s)
                (merge_sort scheduled_ge mine) []) as (h & Hloop).
    + intros a Ha. apply Hrows in Ha. destruct Ha as (Ha & Hc).
      apply Hall; assumption.
    + rewrite Hloop. eexists. reflexivity.
  - intros e.
    destruct (AppointmentService.history_loop (database s)
                (merge_sort scheduled_ge mine) []) as [h | e'] eqn:Hloop;
      [discriminate |].
    intros H. injection H as <-. apply (history_loop_error _ _ _ _ Hloop).
Qed.

Example history_of_sample_customer :
  map (fun bh => (BarberHistory.barber_id bh, BarberHistory.total_visits bh,
                  BarberHistory.last_visit bh))
    Cases.history
  = [(1, 2, Sample.at_ 16 0 0); (2, 1, Sample.at_ 15 0 0)].
Proof. vm_compute. reflexivity. Qed.

Lemma customer_history_exact_witness :
  NoDup (map BarberHistory.barber_id Cases.history).
Proof.
  apply (customer_history_exact Cases.session "5511999990000" Cases.customer
           Cases.history); vm_compute; reflexivity.
Defined.

Lemma customer_history_needs_rows_witness :
  (exists hist,
      AppointmentService.get_customer_history_with_barbers Cases.session
        "5511999990000" = Returns hist)
  <-> forall a, In a (appointments (database Cases.session)) ->
        customer_id a = Customer.id Cases.customer ->
        is_Some (barbers (database Cases.session) !! barber_id a)
        /\ is_Some (services (database Cases.session) !! service_id a).
Proof.
  apply (customer_history_needs_rows Cases.session "5511999990000"
           Cases.customer).
  reflexivity.
Defined.

(** ** Barbers *)

Lemma barber_next_id_above (rows : gmap Z Barber) (key : Z) :
  is_Some (rows !! key) -> key < BarberService.next_id rows.
Proof.
  unfold BarberService.next_id. revert key.
  apply (map_fold_weak_ind
           (fun r (m : gmap Z Barber) =>
              forall key, is_Some (m !! key) -> key < 1 + r)).
  - intros key [b Hb]. rewrite lookup_empty in Hb. discriminate.
  - intros i x m r Hi IH key Hkey.
    destruct (Z.eq_dec i key) as [-> | Hne]; [lia |].
    rewrite lookup_insert_ne in Hkey by exact Hne.
    specialize (IH key Hkey). lia.
Qed.

(** [BarberService.create] stores the barber under an id that was free,
    with working hours 09:00-19:00 and active; [get_by_id] finds it
    there, every other id is found as before, and the new barber is
    among the active ones. *)
Theorem barber_create_then_lookup (db : Database) (name : string) :
  let db' := fst (BarberService.create db name) in
  let key := fst (snd (BarberService.create db name)) in
  let barber := snd (snd (BarberService.create db name)) in
  get_by_id db key = None
  /\ get_by_id db' key = Some barber
  /\ barber_name barber = name
  /\ work_start barber = mk_time 9 0 0 0 /\ work_end barber = mk_time 19 0 0 0
  /\ barber_is_active barber = true
  /\ (forall other, other <> key -> get_by_id db' other = get_by_id db other)
  /\ In (key, barber) (BarberService.get_all_active db')
  /\ appointments db' = appointments db /\ services db' = services db.
Proof.
  simpl. unfold get_by_id. simpl.
  assert (Hfree : barbers db !! BarberService.next_id (barbers db) = None).
  { destruct (barbers db !! BarberService.next_id (barbers db)) eqn:E;
      [| reflexivity].
    assert (H : is_Some (barbers db !! BarberService.next_id (barbers db)))
      by (rewrite E; eexists; reflexivity).
    apply barber_next_id_above in H. lia. }
  repeat split.
  - exact Hfree.
  - apply lookup_insert_eq.
  - intros other Hne. apply lookup_insert_ne. congruence.
  - unfold BarberService.get_all_active. simpl. apply filter_In.
    split; [| reflexivity].
    apply list_elem_of_In, elem_of_map_to_list, lookup_insert_eq.
Qed.

(** [get_all_active] returns the stored barbers whose active flag is
    set, each once, and no other row. *)
Theorem get_all_active_exact (db : Database) :
  NoDup (map fst (BarberService.get_all_active db))
  /\ forall key barber,
       In (key, barber) (BarberService.get_all_active db) <->
       get_by_id db key = Some barber /\ barber_is_active barber = true.
Proof.
  unfold BarberService.get_all_active, get_by_id. split.
  - pose proof (NoDup_fst_map_to_list (barbers db)) as Hnd.
    induction (map_to_list (barbers db)) as [| row rows IH]; simpl;
      [constructor |].
    apply NoDup_cons in Hnd. destruct Hnd as (Hrow & Hrows).
    destruct (barber_is_active (snd row)); [| apply IH; exact Hrows].
    simpl. apply NoDup_cons. split; [| apply IH; exact Hrows].
    intros Hin. apply Hrow. apply list_elem_of_In in Hin.
    apply in_map_iff in Hin. destruct Hin as (r & Hr & Hin).
    apply filter_In in Hin. destruct Hin as (Hin & _).
    apply list_elem_of_In, in_map_iff. exists r. auto.
  - intros key barber. rewrite filter_In, <- list_elem_of_In.
    rewrite elem_of_map_to_list. reflexivity.
Qed.

(** ** Messages *)

Lemma created_ge_head (m : Conversation.t) (stored sorted : list Conversation.t) :
  Permutation sorted (stored ++ [m]) ->
  StronglySorted created_ge sorted ->
  (forall c, In c stored ->
     Conversation.created_at c < Conversation.created_at m) ->
  exists rest, sorted = m :: rest.
Proof.
  intros Hperm Hsorted Hlater.
  destruct sorted as [| x rest].
  - apply Permutation_nil in Hperm. destruct stored; discriminate.
  - exists rest. f_equal.
    assert (Hx : In x (stored ++ [m]))
      by (apply list_elem_of_In; rewrite <- Hperm; left).
    assert (Hm : In m (x :: rest)).
    { apply list_elem_of_In. rewrite Hperm. apply list_elem_of_In.
      apply in_or_app. right. left. reflexivity. }
    apply in_app_iff in Hx. destruct Hx as [Hx | [<- | []]]; [| reflexivity].
    destruct Hm as [<- | Hm]; [reflexivity |].
    apply StronglySorted_inv in Hsorted. destruct Hsorted as (_ & Hall).
    rewrite List.Forall_forall in Hall. specialize (Hall m Hm).
    unfold created_ge in Hall. specialize (Hlater x Hx). lia.
Qed.

(** A message added with a clock value later than that of every stored
    message of the customer is the last of the recent messages asked
    for afterwards, for any positive limit. *)
Theorem added_message_is_last (s : Session) (now : Z) (customer : Z)
    (role content : string) (limit : nat) :
  (forall c, In c (conversations s) ->
     Conversation.customer_id c = customer ->
     Conversation.created_at c < now) ->
  (0 < limit)%nat ->
  let s' := fst (ConversationService.add_message s now customer role content) in
  let message :=
    snd (ConversationService.add_message s now customer role content) in
  exists earlier,
    ConversationService.get_recent_messages s' customer limit
    = earlier ++ [message].
Proof.
  intros Hlater Hlimit s' message.
  unfold ConversationService.get_recent_messages. subst s' message. simpl.
  rewrite List.filter_app. simpl. rewrite Z.eqb_refl.
  destruct created_ge_order as (Htrans & Htotal).
  match goal with
  | |- context [merge_sort created_ge (?stored ++ [?m])] =>
      destruct (created_ge_head m stored
                  (merge_sort created_ge (stored ++ [m]))) as (rest & ->)
  end.
  - apply merge_sort_Permutation.
  - apply StronglySorted_merge_sort; assumption.
  - intros c Hc. apply filter_In in Hc. destruct Hc as (Hc & Hcust).
    apply Z.eqb_eq in Hcust. simpl. apply Hlater; assumption.
  - destruct limit as [| limit]; [lia |]. simpl.
    exists (rev (firstn limit rest)). reflexivity.
Qed.

Lemma added_message_is_last_witness :
  exists earlier,
    ConversationService.get_recent_messages
      (fst (ConversationService.add_message Cases.session (Sample.at_ 8 5 0) 2
              "assistant" "Bom dia"))
      2 10
    = earlier
      ++ [snd (ConversationService.add_message Cases.session
                 (Sample.at_ 8 5 0) 2 "assistant" "Bom dia")].
Proof.
  apply (added_message_is_last Cases.session (Sample.at_ 8 5 0) 2
           "assistant" "Bom dia" 10).
  - intros c [<- | []] _. reflexivity.
  - lia.
Defined.

(** ** One clock reading for each free candidate *)

Lemma candidates_in (n : nat) (d e t c : Z) :
  In c (candidates n d e t) ->
  exists k : Z, 0 <= k /\ c = t + k * timedelta_minutes 30
                /\ c + timedelta_minutes d <= e.
Proof.
  revert t. induction n as [| n IH]; intros t; simpl; [intros [] |].
  destruct (Z.leb_spec (t + timedelta_minutes d) e) as [Hfit | _];
    [| intros []].
  intros [<- | Hin].
  - exists 0. split; [lia | split; [lia | exact Hfit]].
  - destruct (IH _ Hin) as (k & Hk & -> & Hc).
    exists (k + 1). split; [lia | split; [lia | exact Hc]].
Qed.

Lemma candidates_complete (n : nat) (d e t k : Z) :
  e - timedelta_minutes d + 1 - t < Z.of_nat n * timedelta_minutes 30 ->
  0 <= k -> t + k * timedelta_minutes 30 + timedelta_minutes d <= e ->
  In (t + k * timedelta_minutes 30) (candidates n d e t).
Proof.
  revert t k. induction n as [| n IH]; intros t k Hn Hk Hfit;
    pose proof step_pos as Hstep.
  - nia.
  - simpl. destruct (Z.leb_spec (t + timedelta_minutes d) e); [| nia].
    destruct (Z.eq_dec k 0) as [-> | Hk0]; [left; lia | right].
    replace (t + k * timedelta_minutes 30)
      with (t + timedelta_minutes 30 + (k - 1) * timedelta_minutes 30) by lia.
    apply IH; lia.
Qed.

Lemma candidates_sorted (n : nat) (d e t : Z) :
  StronglySorted Z.lt (candidates n d e t).
Proof.
  revert t. induction n as [| n IH]; intros t; simpl; [constructor |].
  destruct (t + timedelta_minutes d <=? e); [| constructor].
  constructor; [apply IH |].
  apply List.Forall_forall. intros c Hc.
  destruct (candidates_in _ _ _ _ _ Hc) as (k & Hk & -> & _).
  pose proof step_pos. nia.
Qed.

(** What the slot loop returns: it reads the clock once for each
    candidate that passes the test against the blocked set, in the
    order of the candidates, and appends the candidate when it is after
    that reading. *)
Lemma slot_loop_exact (n : nat) utcnow (b : gset Z) (d e t : Z)
    (acc : list Z) (reads : nat) :
  slot_loop n utcnow b d e t acc reads
  = (acc ++ after_own_reading utcnow reads
              (List.filter (fun c => slot_is_available b c d)
                 (candidates n d e t)),
     (reads + length (List.filter (fun c => slot_is_available b c d)
                        (candidates n d e t)))%nat).
Proof.
  unfold after_own_reading. revert t acc reads.
  induction n as [| n IH]; intros t acc reads; simpl.
  - rewrite app_nil_r, Nat.add_0_r. reflexivity.
  - destruct (t + timedelta_minutes d <=? e); simpl;
      [| rewrite app_nil_r, Nat.add_0_r; reflexivity].
    destruct (slot_is_available b t d); simpl; rewrite IH.
    + destruct (t >? utcnow reads); simpl.
      * rewrite <- app_assoc. simpl. f_equal. lia.
      * f_equal. lia.
    + reflexivity.
Qed.

Lemma in_after_own_reading (utcnow : nat -> Z) (free : list Z) (first : nat)
    (slot : Z) :
  In slot (after_own_reading utcnow first free) <->
  exists i : nat, free !! i = Some slot /\ utcnow (first + i)%nat < slot.
Proof.
  unfold after_own_reading. revert first.
  induction free as [| c free IH]; intros first; simpl.
  - split; [intros [] | intros (i & Hi & _); discriminate].
  - assert (Htail : In slot
              (map fst
                 (List.filter (fun ci => fst ci >? utcnow (snd ci))
                    (combine free (seq (S first) (length free)))))
            <-> exists i : nat, free !! i = Some slot
                                /\ utcnow (first + S i)%nat < slot).
    { rewrite IH. split; intros (i & Hi & Hnow); exists i;
        (split; [exact Hi |]);
        replace (first + S i)%nat with (S first + i)%nat in * by lia;
        exact Hnow. }
    destruct (Z.gtb_spec c (utcnow first)) as [Hafter | Hnot]; simpl.
    + rewrite Htail. split.
      * intros [<- | (i & Hi & Hnow)].
        -- exists O. rewrite Nat.add_0_r. split; [reflexivity | lia].
        -- exists (S i). split; [exact Hi | exact Hnow].
      * intros ([| i] & Hi & Hnow).
        -- left. simpl in Hi. congruence.
        -- right. exists i. split; [exact Hi | exact Hnow].
    + rewrite Htail. split.
      * intros (i & Hi & Hnow). exists (S i). split; [exact Hi | exact Hnow].
      * intros ([| i] & Hi & Hnow).
        -- simpl in Hi. injection Hi as ->. rewrite Nat.add_0_r in Hnow. lia.
        -- exists i. split; [exact Hi | exact Hnow].
Qed.

(** C8, as the code has it.  Let the free candidates be the instants on
    the 30-minute grid from the start of the working day that leave
    room for the service and have none of their 30-minute points
    blocked, earliest first.  The call reads the clock once for each of
    them and at no other time, the i-th reading being made when the
    i-th free candidate is tested, and it returns exactly the free
    candidates that are strictly after their own reading.  So when no
    reading of the call is before [T] (14:00, say), no returned slot is
    at or before [T]. *)
Theorem one_clock_reading_per_free_candidate (db : Database)
    (utcnow : nat -> Z) (key date d : Z) (barber : Barber) :
  get_by_id db key = Some barber ->
  exists free : list Z,
    StronglySorted Z.lt free
    /\ (forall c : Z,
          In c free <->
          (exists k : Z, 0 <= k
             /\ c = start_of_day barber date + k * timedelta_minutes 30)
          /\ c + timedelta_minutes d <= end_of_day barber date
          /\ (forall j : Z, 0 <= j ->
                j * timedelta_minutes 30 < timedelta_minutes d ->
                c + j * timedelta_minutes 30 ∉ blocked_times_of db key date))
    /\ get_available_slots_reads db utcnow key date d
       = (after_own_reading utcnow O free, length free)
    /\ (forall slot : Z,
          In slot (get_available_slots db utcnow key date d) <->
          exists i : nat, free !! i = Some slot /\ utcnow i < slot)
    /\ (forall T : Z,
          (forall i : nat, (i < length free)%nat -> T <= utcnow i) ->
          forall slot : Z,
            In slot (get_available_slots db utcnow key date d) -> T < slot).
Proof.
  intros Hb.
  set (b := blocked_times_of db key date).
  set (e := end_of_day barber date). set (t := start_of_day barber date).
  set (n := rounds (e - timedelta_minutes d + 1) t).
  exists (List.filter (fun c => slot_is_available b c d) (candidates n d e t)).
  assert (Hcall : get_available_slots_reads db utcnow key date d
            = (after_own_reading utcnow O
                 (List.filter (fun c => slot_is_available b c d)
                    (candidates n d e t)),
               length (List.filter (fun c => slot_is_available b c d)
                         (candidates n d e t)))).
  { unfold get_available_slots_reads. rewrite Hb. cbv zeta.
    fold b e t n. rewrite slot_loop_exact. reflexivity. }
  assert (Hin : forall slot : Z,
            In slot (get_available_slots db utcnow key date d) <->
            exists i : nat,
              List.filter (fun c => slot_is_available b c d)
                (candidates n d e t) !! i = Some slot
              /\ utcnow i < slot).
  { intros slot. unfold get_available_slots. rewrite Hcall. simpl.
    apply in_after_own_reading. }
  split; [| split; [| split; [| split]]].
  - apply strongly_sorted_filter, candidates_sorted.
  - intros c. rewrite filter_In, slot_is_available_spec. split.
    + intros (Hc & Hfree).
      destruct (candidates_in _ _ _ _ _ Hc) as (k & Hk & Hck & Hfit).
      split; [exists k; auto | auto].
    + intros ((k & Hk & ->) & Hfit & Hfree). split; [| exact Hfree].
      apply candidates_complete; [apply rounds_enough | exact Hk | exact Hfit].
  - exact Hcall.
  - exact Hin.
  - intros T HT slot Hslot. apply Hin in Hslot.
    destruct Hslot as (i & Hi & Hnow).
    apply lookup_lt_Some in Hi. specialize (HT i Hi). lia.
Qed.

Lemma one_clock_reading_per_free_candidate_witness :
  exists free : list Z,
    StronglySorted Z.lt free
    /\ (forall c : Z,
          In c free <->
          (exists k : Z, 0 <= k
             /\ c = start_of_day (Sample.barber_9_19 true) (Sample.at_ 0 0 0)
                    + k * timedelta_minutes 30)
          /\ c + timedelta_minutes 30
             <= end_of_day (Sample.barber_9_19 true) (Sample.at_ 0 0 0)
          /\ (forall j : Z, 0 <= j ->
                j * timedelta_minutes 30 < timedelta_minutes 30 ->
                c + j * timedelta_minutes 30
                ∉ blocked_times_of (Sample.shop true 30 []) 1
                    (Sample.at_ 0 0 0)))
    /\ get_available_slots_reads (Sample.shop true 30 [])
         (Sample.frozen (Sample.at_ 14 0 0)) 1 (Sample.at_ 0 0 0) 30
       = (after_own_reading (Sample.frozen (Sample.at_ 14 0 0)) O free,
          length free)
    /\ (forall slot : Z,
          In slot
            (get_available_slots (Sample.shop true 30 [])
               (Sample.frozen (Sample.at_ 14 0 0)) 1 (Sample.at_ 0 0 0) 30)
          <->
          exists i : nat,
            free !! i = Some slot
            /\ Sample.frozen (Sample.at_ 14 0 0) i < slot)
    /\ (forall T : Z,
          (forall i : nat, (i < length free)%nat ->
             T <= Sample.frozen (Sample.at_ 14 0 0) i) ->
          forall slot : Z,
            In slot
              (get_available_slots (Sample.shop true 30 [])
                 (Sample.frozen (Sample.at_ 14 0 0)) 1 (Sample.at_ 0 0 0) 30)
            -> T < slot).
Proof.
  apply (one_clock_reading_per_free_candidate (Sample.shop true 30 [])
           (Sample.frozen (Sample.at_ 14 0 0)) 1 (Sample.at_ 0 0 0) 30
           (Sample.barber_9_19 true)).
  reflexivity.
Defined.
